(** * convert_to_safetensor.py: a shallow embedding and its properties

    The script converts a legacy [pytorch_model.bin] checkpoint into a
    [model.safetensors] container.  The embedding follows the script
    function by function.  Python dictionaries are association lists in
    insertion order, exceptions are an explicit result type, the file
    system and the torch / safetensors libraries are an interface
    ([Runtime]) over which the script is parametric. *)

From Stdlib Require Import List String Ascii ZArith Lia Bool Permutation DecimalString.
Import ListNotations.
Local Open Scope string_scope.
Local Open Scope list_scope.
Local Open Scope Z_scope.

Set Implicit Arguments.

(** ** Exceptions and results *)

Inductive PyExn : Type :=
| AttributeError (what : string)
| KeyError (key : string)
| RuntimeError (msg : string)
| ZeroDivisionError
| OSError (what : string)
| LibraryError (what : string).

Inductive result (A : Type) : Type :=
| Ok (a : A)
| Raise (e : PyExn).
Arguments Ok {A} a.
Arguments Raise {A} e.

Definition rbind {A B} (r : result A) (k : A -> result B) : result B :=
  match r with
  | Ok a => k a
  | Raise e => Raise e
  end.

(** ** Insertion-ordered dictionaries

    A Python [dict] keeps its items in insertion order and its keys are
    unique; [wf_dict] states the latter. *)

Definition odict (V : Type) : Type := list (string * V).

Definition keys {V} (d : odict V) : list string := map fst d.

Definition wf_dict {V} (d : odict V) : Prop := NoDup (keys d).

Definition mem_str (k : string) (l : list string) : bool :=
  existsb (String.eqb k) l.

Fixpoint distinct (l : list string) : bool :=
  match l with
  | [] => true
  | k :: r => negb (mem_str k r) && distinct r
  end.

Definition wf_dictb {V} (d : odict V) : bool := distinct (keys d).

Definition dict_contains {V} (k : string) (d : odict V) : bool :=
  mem_str k (keys d).

Fixpoint dict_get {V} (k : string) (d : odict V) : result V :=
  match d with
  | [] => Raise (KeyError k)
  | (k', v) :: r => if String.eqb k k' then Ok v else dict_get k r
  end.

(** [d.pop(k)]: the caller discards the popped value, only the mutated
    dictionary is returned.  Keys are unique, so the filter removes the
    one item of [k]. *)
Definition dict_pop {V} (k : string) (d : odict V) : result (odict V) :=
  if dict_contains k d
  then Ok (filter (fun kv => negb (String.eqb k (fst kv))) d)
  else Raise (KeyError k).

(** ** Tensors

    The script touches a tensor only through four library methods. *)

Class TorchTensor (T : Type) : Type := {
  data_ptr : T -> Z;
  contiguous : T -> T;
  half : T -> T;
  torch_equal : T -> T -> bool
}.

(** What [torch.load(..., weights_only=True)] can put in a dictionary:
    tensors, nested dictionaries, primitive values. *)
#[warnings="-register-all"]
Inductive PyVal (T : Type) : Type :=
| VTensor (t : T)
| VDict (items : list (string * PyVal T))
| VOther.
Arguments VTensor {T} t.
Arguments VDict {T} items.
Arguments VOther {T}.

Definition tensor_dict {T} (ts : odict T) : odict (PyVal T) :=
  map (fun kt => (fst kt, VTensor (snd kt))) ts.

Section AliasResolver.
Context {T : Type} `{TorchTensor T}.

(** [loaded.items()]: only a dictionary has the method. *)
Definition items_of (loaded : PyVal T) : result (odict (PyVal T)) :=
  match loaded with
  | VDict items => Ok items
  | _ => Raise (AttributeError "items")
  end.

(** [tmp[p].append(k)] on a [defaultdict(list)]: a new key goes to the
    end, an existing key keeps its place. *)
Fixpoint append_name (p : Z) (k : string) (tmp : list (Z * list string))
  : list (Z * list string) :=
  match tmp with
  | [] => [(p, [k])]
  | (q, names) :: r =>
      if Z.eqb p q then (q, names ++ [k]) :: r
      else (q, names) :: append_name p k r
  end.

(** The loop of [get_shared_weights]; [v.data_ptr()] on a value that is
    not a tensor raises [AttributeError]. *)
Fixpoint group_loop (items : odict (PyVal T)) (tmp : list (Z * list string))
  : result (list (Z * list string)) :=
  match items with
  | [] => Ok tmp
  | (k, VTensor t) :: r => group_loop r (append_name (data_ptr t) k tmp)
  | (k, _) :: r => Raise (AttributeError "data_ptr")
  end.

Definition shared_of (tmp : list (Z * list string)) : list (list string) :=
  filter (fun names => (1 <? List.length names)%nat) (map snd tmp).

Definition get_shared_weights (tensors : PyVal T)
  : result (list (list string)) :=
  rbind (items_of tensors) (fun items =>
  rbind (group_loop items []) (fun tmp =>
  Ok (shared_of tmp))).

(** [for name in shared_weights[1:]: loaded.pop(name)] *)
Fixpoint pop_names {V} (names : list string) (loaded : odict V)
  : result (odict V) :=
  match names with
  | [] => Ok loaded
  | n :: r => rbind (dict_pop n loaded) (pop_names r)
  end.

(** [for shared_weights in shared_: ...] *)
Fixpoint drop_shared {V} (shared_ : list (list string)) (loaded : odict V)
  : result (odict V) :=
  match shared_ with
  | [] => Ok loaded
  | sw :: r => rbind (pop_names (tl sw) loaded) (drop_shared r)
  end.

(** Lines 56-62 of [convert_file]: the Alias Resolver. *)
Definition resolve_aliases (loaded : PyVal T) : result (odict (PyVal T)) :=
  rbind (get_shared_weights loaded) (fun shared_ =>
  rbind (items_of loaded) (fun items =>
  drop_shared shared_ items)).

(** Line 67: [{k: v.contiguous().half() for k, v in loaded.items()}]. *)
Fixpoint normalize (items : odict (PyVal T)) : result (odict T) :=
  match items with
  | [] => Ok []
  | (k, VTensor t) :: r =>
      rbind (normalize r) (fun r' => Ok ((k, half (contiguous t)) :: r'))
  | (k, _) :: r => Raise (AttributeError "contiguous")
  end.

(** Lines 79-81: the comparison loop of the round-trip check. *)
Definition mismatch_message (k : string) : string :=
  ("Mismatch in tensors for key " ++ k ++ ".")%string.

Fixpoint compare_loop (items reloaded : odict T) : result unit :=
  match items with
  | [] => Ok tt
  | (k, v) :: r =>
      rbind (dict_get k reloaded) (fun v' =>
      if torch_equal v v' then compare_loop r reloaded
      else Raise (RuntimeError (mismatch_message k)))
  end.

(** *** The resolver in the words of the specification

    Keep an entry exactly when no earlier entry has its buffer key. *)
Fixpoint keep_first_per_buffer (seen : list Z) (ts : odict T) : odict T :=
  match ts with
  | [] => []
  | (k, t) :: r =>
      if existsb (Z.eqb (data_ptr t)) seen
      then keep_first_per_buffer seen r
      else (k, t) :: keep_first_per_buffer (data_ptr t :: seen) r
  end.

(** Pure counterparts of the grouping loop, used in the proofs. *)
Definition group_names (ts : odict T) (tmp : list (Z * list string))
  : list (Z * list string) :=
  fold_left (fun acc kt => append_name (data_ptr (snd kt)) (fst kt) acc) ts tmp.

Fixpoint names_at (p : Z) (tmp : list (Z * list string)) : list string :=
  match tmp with
  | [] => []
  | (q, names) :: r => if Z.eqb p q then names else names_at p r
  end.

Definition keys_at (p : Z) (ts : odict T) : list string :=
  keys (filter (fun kt => Z.eqb (data_ptr (snd kt)) p) ts).

Definition ptrs (ts : odict T) : list Z :=
  map (fun kt => data_ptr (snd kt)) ts.

Definition all_names (tmp : list (Z * list string)) : list string :=
  List.concat (map snd tmp).

Definition pops_of (shared_ : list (list string)) : list string :=
  List.concat (map (@tl string) shared_).

End AliasResolver.

(** ** Python's [int / int] and the literal [0.01]

    True division of two integers yields the binary64 number nearest to
    the exact quotient (ties to even); the literal [0.01] is the binary64
    number nearest to 1/100.  A binary64 value is kept as [mant * 2^expo].
    File sizes are [off_t] values, so the quotient is far below the
    overflow threshold and no infinity or NaN arises. *)

Record dyadic : Type := Dyadic { mant : Z; expo : Z }.

(** [z * 2^k] for [k >= 0], [z] otherwise. *)
Definition shl (z k : Z) : Z := z * 2 ^ Z.max 0 k.

Definition dy_ltb (a b : dyadic) : bool :=
  shl (mant a) (expo a - expo b) <? shl (mant b) (expo b - expo a).

(** [2^k <= n / d], for positive [n] and [d]. *)
Definition ge_pow2 (n d k : Z) : bool := shl d k <=? shl n (- k).

(** The exponent [k] with [2^k <= n / d < 2^(k+1)]. *)
Definition binade (n d : Z) : Z :=
  let k0 := Z.log2 n - Z.log2 d in
  if ge_pow2 n d k0 then k0 else k0 - 1.

(** The integer nearest to [n / d], ties to the even one. *)
Definition round_half_even (n d : Z) : Z :=
  let q := n / d in
  let r := n mod d in
  if 2 * r <? d then q
  else if d <? 2 * r then q + 1
  else if Z.even q then q else q + 1.

(** Rounding of a positive quotient to 53 significant bits, with the
    exponent floor of the subnormal range. *)
Definition round_pos (n d : Z) : dyadic :=
  let e := Z.max (binade n d - 52) (-1074) in
  Dyadic (round_half_even (shl n (- e)) (shl d e)) e.

Definition binary64_of_ratio (x y : Z) : dyadic :=
  if x =? 0 then Dyadic 0 0
  else
    let r := round_pos (Z.abs x) (Z.abs y) in
    if Z.sgn x * Z.sgn y <? 0 then Dyadic (- mant r) (expo r) else r.

Definition py_truediv (x y : Z) : result dyadic :=
  if y =? 0 then Raise ZeroDivisionError else Ok (binary64_of_ratio x y).

Definition float_0_01 : dyadic := binary64_of_ratio 1 100.

(** ** The string and path functions the script calls

    [str.strip], [str.endswith] and the POSIX flavour of [os.path]. *)

Definition slash : ascii := "/"%char.

(** The whitespace of [str.strip()] among the code points below 256. *)
Definition is_space (c : ascii) : bool :=
  let n := nat_of_ascii c in
  ((9 <=? n) && (n <=? 13) || (28 <=? n) && (n <=? 32)
   || (n =? 133) || (n =? 160))%nat.

Fixpoint lstrip_chars (f : ascii -> bool) (l : list ascii) : list ascii :=
  match l with
  | [] => []
  | c :: r => if f c then lstrip_chars f r else l
  end.

Definition rstrip_chars (f : ascii -> bool) (l : list ascii) : list ascii :=
  rev (lstrip_chars f (rev l)).

Definition py_strip (s : string) : string :=
  string_of_list_ascii
    (rstrip_chars is_space (lstrip_chars is_space (list_ascii_of_string s))).

Definition py_endswith (s suffix : string) : bool :=
  let n := String.length s in
  let m := String.length suffix in
  ((m <=? n)%nat && String.eqb (substring (n - m) m s) suffix)%bool.

Definition py_startswith (s pre : string) : bool := String.prefix pre s.

(** [s.split('/')] *)
Fixpoint split_slash (s : string) : list string :=
  match s with
  | EmptyString => [EmptyString]
  | String c r =>
      if Ascii.eqb c slash then EmptyString :: split_slash r
      else match split_slash r with
           | h :: t => String c h :: t
           | [] => [String c EmptyString]
           end
  end.

Definition all_slashes (s : string) : bool :=
  forallb (Ascii.eqb slash) (list_ascii_of_string s).

(** [p[:i]] and [p[i:]] for [i = p.rfind('/') + 1]. *)
Definition split_last_slash (p : string) : string * string :=
  let comps := split_slash p in
  match removelast comps with
  | [] => (EmptyString, last comps EmptyString)
  | front => ((String.concat "/" front ++ "/")%string, last comps EmptyString)
  end.

Definition posix_basename (p : string) : string := snd (split_last_slash p).

Definition posix_dirname (p : string) : string :=
  let head := fst (split_last_slash p) in
  if negb (String.eqb head EmptyString) && negb (all_slashes head)
  then string_of_list_ascii
         (rstrip_chars (Ascii.eqb slash) (list_ascii_of_string head))
  else head.

(** [os.path.join(a, b)] *)
Definition posix_join (a b : string) : string :=
  if py_startswith b "/" then b
  else if String.eqb a EmptyString || py_endswith a "/" then (a ++ b)%string
  else (a ++ "/" ++ b)%string.

(** The component loop of [os.path.normpath]; [acc] is [new_comps]
    reversed. *)
Fixpoint norm_comps (rooted : bool) (comps acc : list string) : list string :=
  match comps with
  | [] => rev acc
  | comp :: r =>
      if String.eqb comp EmptyString || String.eqb comp "." then
        norm_comps rooted r acc
      else if negb (String.eqb comp "..")
              || (negb rooted && match acc with [] => true | _ => false end)
              || match acc with top :: _ => String.eqb top ".." | [] => false end
      then norm_comps rooted r (comp :: acc)
      else norm_comps rooted r (tl acc)
  end.

Definition posix_normpath (path : string) : string :=
  if String.eqb path EmptyString then "."
  else
    let chars := list_ascii_of_string path in
    let body := lstrip_chars (Ascii.eqb slash) chars in
    let lead := (List.length chars - List.length body)%nat in
    let initial_slashes :=
      match lead with
      | O => EmptyString
      | 2%nat => "//"
      | _ => "/"
      end in
    let comps :=
      norm_comps (negb (String.eqb initial_slashes EmptyString))
                 (split_slash (string_of_list_ascii body)) [] in
    let res := (initial_slashes ++ String.concat "/" comps)%string in
    if String.eqb res EmptyString then "." else res.

(** Decimal rendering of a size inside an f-string. *)
Definition dec (n : N) : string := NilZero.string_of_uint (N.to_uint n).

(** ** The outside world

    [torch.load], the safetensors reader and writer and the file-system
    calls are taken as an interface over a world [W].  Calls that only
    read return a result; calls that write return the new world as well,
    also when they raise. *)

Class Runtime (W T : Type) : Type := {
  torch_load : string -> W -> result (odict (PyVal T));
  save_file : odict T -> string -> odict string -> W -> result unit * W;
  load_file : string -> W -> result (odict T);
  os_listdir : string -> W -> result (list string);
  os_path_isfile : string -> W -> bool;
  os_stat_size : string -> W -> result N;
  os_makedirs : string -> W -> result unit * W;
  shutil_copy : string -> string -> W -> result unit * W
}.

(** One event per call into the outside world, in program order. *)
Inductive Event (T : Type) : Type :=
| EvTorchLoad (path : string)
| EvMakedirs (path : string)
| EvSaveFile (tensors : odict T) (path : string)
| EvStat (path : string)
| EvListdir (path : string)
| EvIsFile (path : string)
| EvCopy (file dest : string)
| EvLoadFile (path : string).
Arguments EvTorchLoad {T} path.
Arguments EvMakedirs {T} path.
Arguments EvSaveFile {T} tensors path.
Arguments EvStat {T} path.
Arguments EvListdir {T} path.
Arguments EvIsFile {T} path.
Arguments EvCopy {T} file dest.
Arguments EvLoadFile {T} path.

Record State (W T : Type) : Type := MkState {
  world : W;
  trace : list (Event T)
}.
Arguments MkState {W T} world trace.

(** State and exception monad of the script: an exception keeps the
    effects performed so far. *)
Definition M (W T A : Type) : Type := State W T -> result A * State W T.

Definition ret {W T A} (a : A) : M W T A := fun s => (Ok a, s).

Definition raise {W T A} (e : PyExn) : M W T A := fun s => (Raise e, s).

Definition bind {W T A B} (m : M W T A) (k : A -> M W T B) : M W T B :=
  fun s =>
    match m s with
    | (Ok a, s') => k a s'
    | (Raise e, s') => (Raise e, s')
    end.

Definition lift {W T A} (r : result A) : M W T A := fun s => (r, s).

Definition reading {W T A} (ev : Event T) (f : W -> result A) : M W T A :=
  fun s => (f (world s), MkState (world s) (trace s ++ [ev])).

Definition writing {W T} (ev : Event T) (f : W -> result unit * W)
  : M W T unit :=
  fun s => let (r, w') := f (world s) in (r, MkState w' (trace s ++ [ev])).

Definition log {W T} (s : State W T) (evs : list (Event T)) : State W T :=
  MkState (world s) (trace s ++ evs).

Declare Scope script_scope.
Delimit Scope script_scope with script.
Notation "x <- m ;; k" := (bind m (fun x => k))
  (at level 61, m at next level, right associativity) : script_scope.
Notation "m ;;; k" := (bind m (fun _ => k))
  (at level 61, right associativity) : script_scope.

(** ** The script *)

Section Script.
Context {W T : Type} `{TorchTensor T} `{Runtime W T}.
Local Open Scope script_scope.

Definition newline : string := String (ascii_of_nat 10) EmptyString.

(** The f-string of [check_file_size], with the indentation of the
    source. *)
Definition size_message (sf_filename : string) (sf_size : N)
  (pt_filename : string) (pt_size : N) : string :=
  ("The file size different is more than 1%:" ++ newline
   ++ "            - " ++ sf_filename ++ ": " ++ dec sf_size ++ newline
   ++ "            - " ++ pt_filename ++ ": " ++ dec pt_size ++ newline
   ++ "            ")%string.

(** The loop body of [copy_remaining_files]. *)
Fixpoint copy_loop (files : list string) (source_folder destination_folder : string)
  : M W T unit :=
  match files with
  | [] => ret tt
  | file :: rest =>
      let file_path := posix_join source_folder file in
      is_file <- reading (EvIsFile file_path)
                         (fun w => Ok (os_path_isfile file_path w)) ;;
      (if is_file && negb (py_endswith file ".bin" || py_endswith file ".py")
       then writing (EvCopy file_path destination_folder)
                    (shutil_copy file_path destination_folder)
       else ret tt) ;;;
      copy_loop rest source_folder destination_folder
  end.

Definition copy_remaining_files (source_folder destination_folder : string)
  : M W T unit :=
  files <- reading (EvListdir source_folder) (os_listdir source_folder) ;;
  copy_loop files source_folder destination_folder.

Definition check_file_size (sf_filename pt_filename : string) : M W T unit :=
  sf_size <- reading (EvStat sf_filename) (os_stat_size sf_filename) ;;
  pt_size <- reading (EvStat pt_filename) (os_stat_size pt_filename) ;;
  ratio <- lift (py_truediv (Z.of_N sf_size - Z.of_N pt_size) (Z.of_N pt_size)) ;;
  if dy_ltb float_0_01 ratio
  then raise (RuntimeError (size_message sf_filename sf_size pt_filename pt_size))
  else ret tt.

(** Lines 54-55: unwrap a ["state_dict"] entry. *)
Definition unwrap_state_dict (loaded : odict (PyVal T)) : result (PyVal T) :=
  if dict_contains "state_dict" loaded then dict_get "state_dict" loaded
  else Ok (VDict loaded).

(** Lines 78-81: reload the container and compare. *)
Definition roundtrip_check (loaded : odict T) (sf_filename : string)
  : M W T unit :=
  reloaded <- reading (EvLoadFile sf_filename) (load_file sf_filename) ;;
  lift (compare_loop loaded reloaded).

Definition convert_file (pt_filename sf_filename : string) (copy_add_data : bool)
  : M W T unit :=
  let src_dir := posix_dirname pt_filename in
  let dest_dir := posix_dirname sf_filename in
  loaded <- reading (EvTorchLoad pt_filename) (torch_load pt_filename) ;;
  loaded <- lift (unwrap_state_dict loaded) ;;
  loaded <- lift (resolve_aliases loaded) ;;
  loaded <- lift (normalize loaded) ;;
  writing (EvMakedirs dest_dir) (os_makedirs dest_dir) ;;;
  writing (EvSaveFile loaded sf_filename)
          (save_file loaded sf_filename [("format", "pt")]) ;;;
  check_file_size sf_filename pt_filename ;;;
  (if copy_add_data then copy_remaining_files src_dir dest_dir else ret tt) ;;;
  roundtrip_check loaded sf_filename.

(** [convert_file] from line 70 on, for a given normalized map. *)
Definition deliver (loaded : odict T) (pt_filename sf_filename : string)
  (copy_add_data : bool) : M W T unit :=
  writing (EvMakedirs (posix_dirname sf_filename))
          (os_makedirs (posix_dirname sf_filename)) ;;;
  writing (EvSaveFile loaded sf_filename)
          (save_file loaded sf_filename [("format", "pt")]) ;;;
  check_file_size sf_filename pt_filename ;;;
  (if copy_add_data
   then copy_remaining_files (posix_dirname pt_filename)
                             (posix_dirname sf_filename)
   else ret tt) ;;;
  roundtrip_check loaded sf_filename.

(** The world in which the size-drift check runs: after the directory
    and the container have been written. *)
Definition written_world (loaded : odict T) (sf_filename : string) (w : W) : W :=
  snd (save_file loaded sf_filename [("format", "pt")]
                 (snd (os_makedirs (posix_dirname sf_filename) w))).

(** The namespace of [parser.parse_args()]: neither option has a default,
    so an option absent from the command line is [None]. *)
Record Namespace : Type := MkNamespace {
  src_directory : option string;
  dest_directory : option string
}.

(** [x.strip()] on an attribute that may be [None]. *)
Definition strip_attr (x : option string) : result string :=
  match x with
  | Some s => Ok (py_strip s)
  | None => Raise (AttributeError "strip")
  end.

Definition not_found_message : string :=
  "pytorch_model.bin file not found. Please ensure the correct source directory is specified.".

Definition main (args : Namespace) : M W T unit :=
  src_dir <- lift (strip_attr (src_directory args)) ;;
  dest_dir <- lift (strip_attr (dest_directory args)) ;;
  let dest_dir :=
    if String.eqb dest_dir EmptyString
    then
      let model_name := posix_basename (posix_normpath src_dir) in
      posix_join src_dir (model_name ++ "_safetensors")%string
    else dest_dir in
  entries <- reading (EvListdir src_dir) (os_listdir src_dir) ;;
  if negb (mem_str "pytorch_model.bin" entries)
  then raise (RuntimeError not_found_message)
  else convert_file (posix_join src_dir "pytorch_model.bin")
                    (posix_join dest_dir "model.safetensors") true.

End Script.

(** ** Vocabulary of the statements *)

(** What the library promises about the two tensor methods of the
    Precision Normalizer: [contiguous] yields a contiguous tensor, [half]
    yields a float16 tensor and keeps a contiguous layout. *)
Class TorchContract (T : Type) `{TorchTensor T} : Type := {
  is_half : T -> Prop;
  is_contiguous : T -> Prop;
  contiguous_layout : forall t, is_contiguous (contiguous t);
  half_dtype : forall t, is_half (half t);
  half_layout : forall t, is_contiguous t -> is_contiguous (half t)
}.
Arguments TorchContract T {_}.

(** The destination [main] works with when both options are given. *)
Definition resolved_destination (src dest : string) : string :=
  if String.eqb (py_strip dest) EmptyString
  then posix_join (py_strip src)
         (posix_basename (posix_normpath (py_strip src)) ++ "_safetensors")%string
  else py_strip dest.

Section Vocabulary.
Context {T : Type} `{TorchTensor T}.

(** Loader, Alias Resolver and Precision Normalizer composed: what
    [convert_file] hands to the Container Writer. *)
Definition payload (obj : odict (PyVal T)) : result (odict T) :=
  rbind (unwrap_state_dict obj) (fun loaded =>
  rbind (resolve_aliases loaded) normalize).

(** Events of the Sidecar Copier. *)
Definition copy_event (ev : Event T) : Prop :=
  match ev with
  | EvListdir _ | EvIsFile _ | EvCopy _ _ => True
  | _ => False
  end.

(** The calls of a complete run, in order: load, write, size-drift
    check, sidecar copies, reload for the round-trip check. *)
Definition stages (pt_filename sf_filename : string) (tensors : odict T)
  (copies : list (Event T)) : list (Event T) :=
  [EvTorchLoad pt_filename;
   EvMakedirs (posix_dirname sf_filename);
   EvSaveFile tensors sf_filename;
   EvStat sf_filename;
   EvStat pt_filename]
  ++ copies ++ [EvLoadFile sf_filename].

(** The order the specification gives: every copy comes after the reload
    of the round-trip check. *)
Definition checks_before_copies (tr : list (Event T)) : Prop :=
  forall pre post file dest,
    tr = pre ++ EvCopy file dest :: post ->
    exists path, In (EvLoadFile path) pre.

(** [|output_size - input_size| / input_size <= 0.01], the bound on the
    absolute difference, over the exact sizes. *)
Definition abs_drift_ok (sf_size pt_size : N) : Prop :=
  100 * Z.abs (Z.of_N sf_size - Z.of_N pt_size) <= Z.of_N pt_size.

(** [(output_size - input_size) / input_size <= 0.01], growth only. *)
Definition growth_ok (sf_size pt_size : N) : Prop :=
  100 * (Z.of_N sf_size - Z.of_N pt_size) <= Z.of_N pt_size.

(** The first retained name whose reloaded tensor differs. *)
Fixpoint first_mismatch (items reloaded : odict T) : option string :=
  match items with
  | [] => None
  | (k, v) :: r =>
      match dict_get k reloaded with
      | Ok v' => if torch_equal v v' then first_mismatch r reloaded else Some k
      | Raise _ => first_mismatch r reloaded
      end
  end.

End Vocabulary.

(** ** What the library says about storage and equality

    The script never looks inside a tensor: what [data_ptr] returns and
    what [torch.equal] compares is the library's business.  The two
    contracts below are modelled from PyTorch's documentation. *)

(** Modelled from PyTorch's documentation of [Tensor.untyped_storage],
    [Tensor.storage_offset], [Tensor.element_size] and [Tensor.data_ptr]:
    a tensor is a view of a storage, a block of [storage_nbytes] bytes
    allocated at address [storage_base]; its first element lies
    [offset_bytes] (the storage offset times the element size) bytes into
    the block, and [data_ptr] is the address of that first element. *)
Class StorageContract (T : Type) `{TorchTensor T} : Type := {
  storage_base : T -> Z;
  storage_nbytes : T -> Z;
  offset_bytes : T -> Z;
  data_ptr_address : forall t, data_ptr t = storage_base t + offset_bytes t
}.
Arguments StorageContract T {_}.

Section StorageVocabulary.
Context {T : Type} `{StorageContract T}.











End StorageVocabulary.

(** Modelled from IEEE 754 binary16, the element type of the tensors the
    round-trip check compares: bit 15 is the sign, bits 14 to 10 the
    exponent, bits 9 to 0 the fraction.  An element is given by its bit
    pattern, a number below 2^16. *)
Definition fp16_exponent (x : Z) : Z := Z.land (Z.shiftr x 10) 31.

Definition fp16_fraction (x : Z) : Z := Z.land x 1023.

Definition fp16_nan (x : Z) : bool :=
  (fp16_exponent x =? 31) && negb (fp16_fraction x =? 0).

Definition fp16_zero (x : Z) : bool := Z.land x 32767 =? 0.

(** Equality of two elements as numbers: a NaN equals nothing, the two
    zeros are equal, any other two elements are equal when their bits
    are. *)
Definition fp16_eqb (x y : Z) : bool :=
  negb (fp16_nan x) && negb (fp16_nan y)
  && ((x =? y) || (fp16_zero x && fp16_zero y)).

Fixpoint bits_equal (a b : list Z) : bool :=
  match a, b with
  | [], [] => true
  | x :: a', y :: b' => fp16_eqb x y && bits_equal a' b'
  | _, _ => false
  end.

Fixpoint shape_eqb (a b : list Z) : bool :=
  match a, b with
  | [], [] => true
  | x :: a', y :: b' => (x =? y) && shape_eqb a' b'
  | _, _ => false
  end.

(** Modelled from PyTorch's documentation of [torch.equal]: "True if two
    tensors have the same size and elements, False otherwise", the
    elements being compared as numbers.  [tensor_bits] lists the bit
    patterns of the elements in row-major order. *)
Class EqualContract (T : Type) `{TorchTensor T} : Type := {
  tensor_shape : T -> list Z;
  tensor_bits : T -> list Z;
  torch_equal_elementwise : forall a b,
    torch_equal a b
    = shape_eqb (tensor_shape a) (tensor_shape b)
      && bits_equal (tensor_bits a) (tensor_bits b)
}.
Arguments EqualContract T {_}.

Section EqualVocabulary.
Context {T : Type} `{EqualContract T}.

(** Every retained tensor comes back with the shape and the bits that
    were written. *)
Definition bit_identical (tensors reloaded : odict T) : Prop :=
  forall k v,
    In (k, v) tensors ->
    exists v', dict_get k reloaded = Ok v'
               /\ tensor_shape v' = tensor_shape v
               /\ tensor_bits v' = tensor_bits v.

(** The tensor holds a NaN. *)
Definition has_nan (t : T) : bool := existsb fp16_nan (tensor_bits t).

(** "Exact bit-for-bit equality ... no error is raised when all tensors
    match": a reload that is bit for bit what was written passes the
    check. *)
Definition bitwise_roundtrip_passes (tensors reloaded : odict T)
  (r : result unit) : Prop :=
  bit_identical tensors reloaded -> r = Ok tt.

End EqualVocabulary.

(** ** A small concrete runtime

    A finite world used to run the script on concrete inputs: tensors
    with a storage address, a dtype, a layout flag and a few elements;
    files that are checkpoints, containers or plain data. *)

Module Toy.

Inductive DType : Type := Float16 | Float32 | Int64.

Inductive Elem : Type := Num (z : Z) | NaN.

Record Tensor : Type := MkTensor {
  t_ptr : Z;
  t_dtype : DType;
  t_contiguous : bool;
  t_data : list Elem
}.

Definition dtype_eqb (a b : DType) : bool :=
  match a, b with
  | Float16, Float16 | Float32, Float32 | Int64, Int64 => true
  | _, _ => false
  end.

(** Element comparison of [torch.equal]: a NaN differs from everything. *)
Definition elem_eqb (a b : Elem) : bool :=
  match a, b with
  | Num x, Num y => Z.eqb x y
  | _, _ => false
  end.

Fixpoint data_eqb (a b : list Elem) : bool :=
  match a, b with
  | [], [] => true
  | x :: a', y :: b' => elem_eqb x y && data_eqb a' b'
  | _, _ => false
  end.

#[export] Instance tensor_ops : TorchTensor Tensor := {
  data_ptr := t_ptr;
  contiguous t := MkTensor (t_ptr t) (t_dtype t) true (t_data t);
  half t := MkTensor (t_ptr t) Float16 (t_contiguous t) (t_data t);
  torch_equal a b := dtype_eqb (t_dtype a) (t_dtype b) && data_eqb (t_data a) (t_data b)
}.

#[export] Instance contract : TorchContract Tensor.
Proof.
  refine {| is_half t := t_dtype t = Float16;
            is_contiguous t := t_contiguous t = true |}.
  - reflexivity.
  - reflexivity.
  - intros t Ht. exact Ht.
Defined.

Inductive Node : Type :=
| Dir
| Legacy (obj : odict (PyVal Tensor)) (size : N)
| Container (tensors : odict Tensor) (metadata : odict string)
| Plain (size : N).

Definition World : Type := list (string * Node).

Fixpoint find (p : string) (w : World) : option Node :=
  match w with
  | [] => None
  | (q, n) :: r => if String.eqb p q then Some n else find p r
  end.

Fixpoint store (p : string) (n : Node) (w : World) : World :=
  match w with
  | [] => [(p, n)]
  | (q, m) :: r => if String.eqb p q then (q, n) :: r else (q, m) :: store p n r
  end.

Definition container_size (tensors : odict Tensor) : N :=
  fold_left (fun acc kt => (acc + 32 + 2 * N.of_nat (List.length (t_data (snd kt))))%N)
            tensors 8%N.

Definition entries_of (d : string) (w : World) : list string :=
  map (fun pn => posix_basename (fst pn))
      (filter (fun pn => String.eqb (posix_dirname (fst pn)) d
                         && negb (String.eqb (fst pn) d)) w).

#[export] Instance runtime : Runtime World Tensor := {
  torch_load p w :=
    match find p w with
    | Some (Legacy obj _) => Ok obj
    | Some _ => Raise (LibraryError "not a checkpoint")
    | None => Raise (OSError "no such file")
    end;
  save_file tensors p metadata w := (Ok tt, store p (Container tensors metadata) w);
  load_file p w :=
    match find p w with
    | Some (Container tensors _) => Ok tensors
    | Some _ => Raise (LibraryError "not a container")
    | None => Raise (OSError "no such file")
    end;
  os_listdir d w :=
    match find d w with
    | Some Dir => Ok (entries_of d w)
    | Some _ => Raise (OSError "not a directory")
    | None => Raise (OSError "no such directory")
    end;
  os_path_isfile p w :=
    match find p w with
    | Some Dir | None => false
    | Some _ => true
    end;
  os_stat_size p w :=
    match find p w with
    | Some Dir => Ok 4096%N
    | Some (Legacy _ size) => Ok size
    | Some (Container tensors _) => Ok (container_size tensors)
    | Some (Plain size) => Ok size
    | None => Raise (OSError "no such file")
    end;
  os_makedirs d w :=
    match find d w with
    | Some Dir => (Ok tt, w)
    | Some _ => (Raise (OSError "file exists"), w)
    | None => (Ok tt, store d Dir w)
    end;
  shutil_copy f dest w :=
    match find f w with
    | Some Dir | None => (Raise (OSError "no such file"), w)
    | Some n =>
        match find dest w with
        | Some Dir => (Ok tt, store (posix_join dest (posix_basename f)) n w)
        | _ => (Ok tt, store dest n w)
        end
    end
}.

(** Two names for one float32 buffer, as with tied embedding and output
    weights. *)
Definition w1 : Tensor := MkTensor 4096 Float32 true [Num 1; Num 2; Num 3; Num 4].

Definition tied_checkpoint : odict (PyVal Tensor) :=
  [("w1", VTensor w1); ("w2", VTensor w1)].

Definition model_dir (obj : odict (PyVal Tensor)) (size : N) : World :=
  [("/data/foo", Dir);
   ("/data/foo/pytorch_model.bin", Legacy obj size);
   ("/data/foo/config.json", Plain 20)].

Definition start (w : World) : State World Tensor := MkState w [].

(** A weight holding a NaN. *)
Definition w_nan : Tensor := MkTensor 8192 Float16 true [Num 1; NaN].

Definition nan_checkpoint : odict (PyVal Tensor) := [("w", VTensor w_nan)].

Definition pt_path : string := "/data/foo/pytorch_model.bin".

Definition sf_path : string := "/out/model.safetensors".

(** [convert_file] on a model directory holding [obj] in a legacy file
    of [size] bytes. *)
Definition convert (obj : odict (PyVal Tensor)) (size : N)
  : result unit * State World Tensor :=
  convert_file pt_path sf_path true (start (model_dir obj size)).

(** Two files of given sizes, for the size-drift check alone. *)
Definition sizes_world (sf_size pt_size : N) : World :=
  [(sf_path, Plain sf_size); (pt_path, Plain pt_size)].

(** A source directory without the legacy file. *)
Definition config_only : World :=
  [("/data/foo", Dir); ("/data/foo/config.json", Plain 20)].

Definition both_options : Namespace :=
  MkNamespace (Some "/data/foo") (Some "/out").

(** Three names for one buffer. *)
Definition three_views : odict Tensor := [("a", w1); ("b", w1); ("c", w1)].

End Toy.

(** ** Further vocabulary and inputs *)

(** A dictionary value that is a tensor. *)
Definition is_tensor {T} (v : PyVal T) : bool :=
  match v with
  | VTensor _ => true
  | _ => false
  end.

(** A dictionary value that is a dictionary. *)
Definition is_dict {T} (v : PyVal T) : bool :=
  match v with
  | VDict _ => true
  | _ => false
  end.

(** [file] is kept by the filter of [copy_remaining_files]. *)
Definition sidecar_name (file : string) : bool :=
  negb (py_endswith file ".bin" || py_endswith file ".py").

(** The events [copy_remaining_files] may emit for a listing [files]:
    the listing itself, a file test, or the copy of a listed entry that
    passes the name filter, into the destination folder. *)
Definition copier_event {T} (files : list string) (src dst : string)
  (ev : Event T) : Prop :=
  match ev with
  | EvListdir d => d = src
  | EvIsFile p => exists file, In file files /\ p = posix_join src file
  | EvCopy p d =>
      d = dst
      /\ exists file, In file files /\ p = posix_join src file
                      /\ sidecar_name file = true
  | _ => False
  end.

(** The midpoint between the double [0.01] and the next double, scaled by
    2^60: from this quotient on, the division rounds above [0.01]. *)
Definition drift_midpoint : Z := 11529215046068471.

(** No ["/"] in the string. *)
Definition slash_free (s : string) : bool :=
  forallb (fun c => negb (Ascii.eqb c slash)) (list_ascii_of_string s).

(** The last character is ["/"]. *)
Fixpoint ends_with_slash (s : string) : bool :=
  match s with
  | EmptyString => false
  | String c EmptyString => Ascii.eqb c slash
  | String _ r => ends_with_slash r
  end.

(** The part of [os.path.join(a, name)] before [name]. *)
Definition join_head (a : string) : string :=
  if String.eqb a EmptyString then EmptyString
  else if ends_with_slash a then a
  else (a ++ "/")%string.

Module Fixtures.
Import Toy.

(** Two tensors on two buffers. *)
Definition w_other : Tensor := MkTensor 12288 Float32 true [Num 5; Num 6].

Definition two_buffers : odict Tensor := [("w1", w1); ("w3", w_other)].

(** A checkpoint that also records the epoch. *)
Definition with_epoch : odict (PyVal Tensor) :=
  [("w1", VTensor w1); ("epoch", VOther)].

(** A checkpoint wrapped in a ["state_dict"] entry. *)
Definition wrapped : odict (PyVal Tensor) :=
  [("epoch", VOther); ("state_dict", VDict tied_checkpoint)].

(** A parameter that is itself named ["state_dict"]. *)
Definition param_named_state_dict : odict (PyVal Tensor) :=
  [("state_dict", VTensor w1)].

(** A source directory holding only a script and a second weight file
    beside the checkpoint. *)
Definition no_sidecars : World :=
  [("/data/foo", Dir);
   ("/data/foo/pytorch_model.bin", Plain 50);
   ("/data/foo/train.py", Plain 10);
   ("/data/foo/sub", Dir);
   ("/out", Dir)].

End Fixtures.

(** ** Half-precision views of shared storage

    A second concrete runtime, for the statements about storage and
    about NaN: one-dimensional contiguous float16 tensors, each a window
    of [numel] elements starting [storage_offset] elements into a
    storage.  On such a tensor [contiguous()] and [half()] return the
    tensor itself.  A container file holds the elements of its tensors,
    not their addresses: reloading allocates a fresh storage for each. *)

Module Strided.

Record Storage : Type := MkStorage {
  base : Z;
  cells : list Z
}.

Record Tensor : Type := MkView {
  storage : Storage;
  storage_offset : nat;
  numel : nat
}.

Definition elements (t : Tensor) : list Z :=
  firstn (numel t) (skipn (storage_offset t) (cells (storage t))).

#[export] Instance tensor_ops : TorchTensor Tensor := {
  data_ptr t := base (storage t) + 2 * Z.of_nat (storage_offset t);
  contiguous t := t;
  half t := t;
  torch_equal a b :=
    shape_eqb [Z.of_nat (numel a)] [Z.of_nat (numel b)]
    && bits_equal (elements a) (elements b)
}.

#[export] Instance storage_contract : StorageContract Tensor := {
  storage_base t := base (storage t);
  storage_nbytes t := 2 * Z.of_nat (List.length (cells (storage t)));
  offset_bytes t := 2 * Z.of_nat (storage_offset t);
  data_ptr_address t := eq_refl
}.

#[export] Instance equal_contract : EqualContract Tensor := {
  tensor_shape t := [Z.of_nat (numel t)];
  tensor_bits := elements;
  torch_equal_elementwise a b := eq_refl
}.

Inductive Node : Type :=
| Dir
| Legacy (obj : odict (PyVal Tensor)) (size : N)
| Container (tensors : odict (list Z)) (metadata : odict string)
| Plain (size : N).

Definition World : Type := list (string * Node).

Fixpoint find (p : string) (w : World) : option Node :=
  match w with
  | [] => None
  | (q, n) :: r => if String.eqb p q then Some n else find p r
  end.

Fixpoint store (p : string) (n : Node) (w : World) : World :=
  match w with
  | [] => [(p, n)]
  | (q, m) :: r => if String.eqb p q then (q, n) :: r else (q, m) :: store p n r
  end.

Definition container_size (tensors : odict (list Z)) : N :=
  fold_left (fun acc kt => (acc + 32 + 2 * N.of_nat (List.length (snd kt)))%N)
            tensors 8%N.

(** Reloading: every tensor gets a storage of its own, from [addr] on. *)
Fixpoint materialize (addr : Z) (tensors : odict (list Z)) : odict Tensor :=
  match tensors with
  | [] => []
  | (k, bits) :: r =>
      (k, MkView (MkStorage addr bits) 0 (List.length bits))
      :: materialize (addr + 2 * Z.of_nat (List.length bits) + 64) r
  end.

Definition entries_of (d : string) (w : World) : list string :=
  map (fun pn => posix_basename (fst pn))
      (filter (fun pn => String.eqb (posix_dirname (fst pn)) d
                         && negb (String.eqb (fst pn) d)) w).

#[export] Instance runtime : Runtime World Tensor := {
  torch_load p w :=
    match find p w with
    | Some (Legacy obj _) => Ok obj
    | Some _ => Raise (LibraryError "not a checkpoint")
    | None => Raise (OSError "no such file")
    end;
  save_file tensors p metadata w :=
    (Ok tt,
     store p (Container (map (fun kt => (fst kt, elements (snd kt))) tensors)
                        metadata) w);
  load_file p w :=
    match find p w with
    | Some (Container tensors _) => Ok (materialize 1048576 tensors)
    | Some _ => Raise (LibraryError "not a container")
    | None => Raise (OSError "no such file")
    end;
  os_listdir d w :=
    match find d w with
    | Some Dir => Ok (entries_of d w)
    | Some _ => Raise (OSError "not a directory")
    | None => Raise (OSError "no such directory")
    end;
  os_path_isfile p w :=
    match find p w with
    | Some Dir | None => false
    | Some _ => true
    end;
  os_stat_size p w :=
    match find p w with
    | Some Dir => Ok 4096%N
    | Some (Legacy _ size) => Ok size
    | Some (Container tensors _) => Ok (container_size tensors)
    | Some (Plain size) => Ok size
    | None => Raise (OSError "no such file")
    end;
  os_makedirs d w :=
    match find d w with
    | Some Dir => (Ok tt, w)
    | Some _ => (Raise (OSError "file exists"), w)
    | None => (Ok tt, store d Dir w)
    end;
  shutil_copy f dest w :=
    match find f w with
    | Some Dir | None => (Raise (OSError "no such file"), w)
    | Some n =>
        match find dest w with
        | Some Dir => (Ok tt, store (posix_join dest (posix_basename f)) n w)
        | _ => (Ok tt, store dest n w)
        end
    end
}.

(** The halves 1.0, 2.0, 3.0 and 4.0 in one storage. *)
Definition buffer : Storage := MkStorage 4096 [15360; 16384; 16896; 17408].


Definition whole : Tensor := MkView buffer 0 4.


(** The two halves of [buffer]: views of one storage at offsets 0 and
    2. *)
Definition front : Tensor := MkView buffer 0 2.





(** 1.0 and a quiet NaN. *)
Definition nan_weight : Tensor := MkView (MkStorage 4096 [15360; 32256]) 0 2.

Definition nan_checkpoint : odict (PyVal Tensor) := [("w", VTensor nan_weight)].

Definition pt_path : string := "/data/foo/pytorch_model.bin".

Definition sf_path : string := "/out/model.safetensors".

Definition model_dir (obj : odict (PyVal Tensor)) (size : N) : World :=
  [("/data/foo", Dir);
   ("/data/foo/pytorch_model.bin", Legacy obj size);
   ("/data/foo/config.json", Plain 20)].

Definition start (w : World) : State World Tensor := MkState w [].

(** A world in which the container of [tensors] has been written. *)
Definition holding (tensors : odict Tensor) : World :=
  snd (save_file tensors sf_path [("format", "pt")] []).

End Strided.
(* ====================================================================== *)
(** * Properties *)

Unset Implicit Arguments.

(** ** Dictionaries *)

Lemma mem_str_In (k : string) (l : list string) :
  mem_str k l = true <-> In k l.
Proof.
  unfold mem_str. rewrite existsb_exists. split.
  - intros (x & Hx & E). apply String.eqb_eq in E. now subst.
  - intros Hk. exists k. split; [assumption | apply String.eqb_refl].
Qed.

Lemma mem_str_false (k : string) (l : list string) :
  mem_str k l = false <-> ~ In k l.
Proof.
  rewrite <- mem_str_In. destruct (mem_str k l); split; congruence.
Qed.

Lemma distinct_NoDup (l : list string) : distinct l = true -> NoDup l.
Proof.
  induction l as [|k r IH]; cbn [distinct]; intros Hd.
  - constructor.
  - apply andb_prop in Hd. destruct Hd as (Hk & Hr).
    apply Bool.negb_true_iff, mem_str_false in Hk.
    constructor; auto.
Qed.

Lemma wf_dictb_sound {V} (d : odict V) : wf_dictb d = true -> wf_dict d.
Proof. apply distinct_NoDup. Qed.

Lemma keys_filter_incl {V} (f : string * V -> bool) (d : odict V) :
  incl (keys (filter f d)) (keys d).
Proof.
  intros k Hk. unfold keys in *. apply in_map_iff in Hk.
  destruct Hk as (kv & E & Hin). apply filter_In in Hin.
  apply in_map_iff. exists kv. tauto.
Qed.

Lemma wf_dict_filter {V} (f : string * V -> bool) (d : odict V) :
  wf_dict d -> wf_dict (filter f d).
Proof.
  unfold wf_dict, keys. induction d as [|[k v] d IH]; simpl; intros Hd.
  - constructor.
  - inversion Hd as [|? ? Hk Hd']; subst.
    destruct (f (k, v)); simpl; auto.
    constructor; auto.
    intros Hin. apply Hk. now apply (keys_filter_incl f d).
Qed.

Lemma wf_dict_unique {V} (d : odict V) (k : string) (v w : V) :
  wf_dict d -> In (k, v) d -> In (k, w) d -> v = w.
Proof.
  unfold wf_dict, keys. induction d as [|[k' v'] d IH]; simpl; intros Hd Hv Hw.
  - contradiction.
  - inversion Hd as [|? ? Hk Hd']; subst.
    destruct Hv as [Ev|Hv], Hw as [Ew|Hw].
    + congruence.
    + inversion Ev; subst. exfalso. apply Hk.
      apply in_map_iff. now exists (k, w).
    + inversion Ew; subst. exfalso. apply Hk.
      apply in_map_iff. now exists (k, v).
    + now apply IH.
Qed.

Lemma pop_names_app {V} (a b : list string) (d : odict V) :
  pop_names (a ++ b) d = rbind (pop_names a d) (pop_names b).
Proof.
  revert d. induction a as [|n a IH]; intros d; simpl.
  - reflexivity.
  - destruct (dict_pop n d) as [d'|e]; simpl; [apply IH | reflexivity].
Qed.

Lemma drop_shared_pops {V} (shared_ : list (list string)) (d : odict V) :
  drop_shared shared_ d = pop_names (pops_of shared_) d.
Proof.
  revert d. induction shared_ as [|sw r IH]; intros d.
  - reflexivity.
  - unfold pops_of. simpl. rewrite pop_names_app.
    destruct (pop_names (tl sw) d) as [d'|e]; simpl; [apply IH | reflexivity].
Qed.

(** Popping distinct keys that are all present never raises and leaves
    the other items in place. *)
Lemma pop_names_filter {V} (names : list string) (d : odict V) :
  NoDup names -> incl names (keys d) ->
  pop_names names d = Ok (filter (fun kv => negb (mem_str (fst kv) names)) d).
Proof.
  revert d. induction names as [|n r IH]; intros d Hnd Hin; simpl.
  - f_equal. symmetry. apply forallb_filter_id.
    apply forallb_forall. reflexivity.
  - inversion Hnd as [|? ? Hn Hr]; subst.
    unfold dict_pop, dict_contains.
    assert (Hnk : In n (keys d)) by (apply Hin; now left).
    apply mem_str_In in Hnk. rewrite Hnk. simpl.
    rewrite IH; auto.
    + f_equal. clear. induction d as [|[k v] d IHd]; simpl; auto.
      rewrite (String.eqb_sym k n).
      destruct (String.eqb n k); simpl; rewrite IHd; reflexivity.
    + intros k Hk. assert (Hk' : In k (keys d)) by (apply Hin; now right).
      unfold keys in *. apply in_map_iff in Hk'.
      destruct Hk' as ([k' v] & E & Hkv). simpl in E. subst k'.
      apply in_map_iff. exists (k, v). split; auto.
      apply filter_In. split; auto. simpl.
      destruct (String.eqb_spec n k); auto. subst. contradiction.
Qed.

(** ** The alias resolver *)

Section AliasFacts.
Context {T : Type} `{TorchTensor T}.

Lemma names_at_append (p q : Z) (k : string) (tmp : list (Z * list string)) :
  names_at p (append_name q k tmp)
  = if Z.eqb p q then names_at p tmp ++ [k] else names_at p tmp.
Proof.
  induction tmp as [|[q' names] r IH]; simpl.
  - destruct (Z.eqb p q); reflexivity.
  - destruct (Z.eqb_spec q q') as [->|Hq]; simpl.
    + destruct (Z.eqb p q'); reflexivity.
    + rewrite IH. destruct (Z.eqb_spec p q') as [->|Hp]; auto.
      destruct (Z.eqb_spec q' q); congruence.
Qed.

Lemma keys_at_cons (p : Z) (k : string) (t : T) (ts : odict T) :
  keys_at p ((k, t) :: ts)
  = if Z.eqb p (data_ptr t) then k :: keys_at p ts else keys_at p ts.
Proof.
  unfold keys_at. simpl. rewrite (Z.eqb_sym (data_ptr t) p).
  destruct (Z.eqb p (data_ptr t)); reflexivity.
Qed.

Lemma names_at_group (p : Z) (ts : odict T) (tmp : list (Z * list string)) :
  names_at p (group_names ts tmp) = names_at p tmp ++ keys_at p ts.
Proof.
  revert tmp. induction ts as [|[k t] ts IH]; intros tmp.
  - unfold keys_at. simpl. now rewrite app_nil_r.
  - unfold group_names in *. simpl. rewrite IH, names_at_append, keys_at_cons.
    destruct (Z.eqb p (data_ptr t)); auto.
    now rewrite <- app_assoc.
Qed.

Lemma append_name_fst (p q : Z) (k : string) (tmp : list (Z * list string)) :
  In q (map fst (append_name p k tmp)) <-> q = p \/ In q (map fst tmp).
Proof.
  induction tmp as [|[q' names] r IH]; simpl.
  - intuition.
  - destruct (Z.eqb_spec p q') as [->|Hp]; simpl.
    + intuition.
    + rewrite IH. intuition.
Qed.

Lemma append_name_NoDup (p : Z) (k : string) (tmp : list (Z * list string)) :
  NoDup (map fst tmp) -> NoDup (map fst (append_name p k tmp)).
Proof.
  induction tmp as [|[q' names] r IH]; simpl; intros Hnd.
  - constructor; [intros [] | constructor].
  - inversion Hnd as [|? ? Hq Hr]; subst.
    destruct (Z.eqb_spec p q') as [->|Hp]; simpl.
    + now constructor.
    + constructor; auto. rewrite append_name_fst. intros [E|Hin]; auto.
Qed.

Lemma group_names_NoDup (ts : odict T) (tmp : list (Z * list string)) :
  NoDup (map fst tmp) -> NoDup (map fst (group_names ts tmp)).
Proof.
  revert tmp. induction ts as [|[k t] ts IH]; intros tmp Hnd; simpl; auto.
  apply IH. now apply append_name_NoDup.
Qed.

Lemma names_at_entry (p : Z) (names : list string) (tmp : list (Z * list string)) :
  NoDup (map fst tmp) -> In (p, names) tmp -> names_at p tmp = names.
Proof.
  induction tmp as [|[q' ns] r IH]; simpl; intros Hnd Hin.
  - contradiction.
  - inversion Hnd as [|? ? Hq Hr]; subst.
    destruct Hin as [E|Hin].
    + inversion E; subst. now rewrite Z.eqb_refl.
    + destruct (Z.eqb_spec p q') as [->|Hp]; auto.
      exfalso. apply Hq. apply in_map_iff. now exists (q', names).
Qed.

Lemma names_at_present (p : Z) (tmp : list (Z * list string)) :
  names_at p tmp <> [] -> In (p, names_at p tmp) tmp.
Proof.
  induction tmp as [|[q' ns] r IH]; simpl; intros Hne.
  - congruence.
  - destruct (Z.eqb_spec p q') as [->|Hp]; auto.
Qed.

Lemma all_names_append (p : Z) (k : string) (tmp : list (Z * list string)) :
  Permutation (all_names (append_name p k tmp)) (k :: all_names tmp).
Proof.
  unfold all_names. induction tmp as [|[q' ns] r IH]; simpl.
  - reflexivity.
  - destruct (Z.eqb p q'); simpl.
    + rewrite <- app_assoc. simpl. symmetry. apply Permutation_middle.
    + rewrite IH. symmetry. apply Permutation_middle.
Qed.

Lemma all_names_group (ts : odict T) (tmp : list (Z * list string)) :
  Permutation (all_names (group_names ts tmp)) (keys ts ++ all_names tmp).
Proof.
  revert tmp. induction ts as [|[k t] ts IH]; intros tmp; simpl.
  - reflexivity.
  - unfold group_names in *. simpl. rewrite IH, all_names_append.
    symmetry. apply Permutation_middle.
Qed.

Lemma tl_incl {A} (l : list A) : incl (tl l) l.
Proof. destruct l; [apply incl_refl | apply incl_tl, incl_refl]. Qed.

Lemma tl_NoDup {A} (l : list A) : NoDup l -> NoDup (tl l).
Proof. destruct l; simpl; auto. intros Hl. now inversion Hl. Qed.

Lemma pops_incl (f : list string -> bool) (L : list (list string)) :
  incl (pops_of (filter f L)) (List.concat L).
Proof.
  unfold pops_of. induction L as [|x L IH]; simpl.
  - apply incl_refl.
  - destruct (f x); simpl.
    + apply incl_app_app; [apply tl_incl | exact IH].
    + now apply incl_appr.
Qed.

Lemma NoDup_app_disjoint {A} (l l' : list A) (a : A) :
  NoDup (l ++ l') -> In a l -> ~ In a l'.
Proof.
  induction l as [|x l IH]; simpl; intros Hnd Hin Hin'.
  - contradiction.
  - inversion Hnd as [|? ? Hx Hl]; subst. destruct Hin as [->|Hin].
    + apply Hx. apply in_or_app. now right.
    + now apply IH.
Qed.

Lemma pops_NoDup (f : list string -> bool) (L : list (list string)) :
  NoDup (List.concat L) -> NoDup (pops_of (filter f L)).
Proof.
  unfold pops_of. induction L as [|x L IH]; simpl; intros Hnd.
  - constructor.
  - apply NoDup_app_remove_l in Hnd as HL.
    destruct (f x); simpl; auto.
    apply NoDup_app_remove_r in Hnd as Hx.
    apply NoDup_app.
    + now apply tl_NoDup.
    + now apply IH.
    + intros k Hk Hk'. apply (NoDup_app_disjoint _ _ k Hnd).
      * now apply tl_incl.
      * now apply (pops_incl f L).
Qed.

Lemma keys_at_incl (p : Z) (ts : odict T) : incl (keys_at p ts) (keys ts).
Proof. apply keys_filter_incl. Qed.

Lemma keys_at_In (p : Z) (k : string) (ts : odict T) :
  In k (keys_at p ts) <-> exists t, In (k, t) ts /\ data_ptr t = p.
Proof.
  unfold keys_at, keys. rewrite in_map_iff. split.
  - intros ([k' t] & E & Hin). simpl in E. subst k'.
    apply filter_In in Hin. destruct Hin as (Hin & Hp). simpl in Hp.
    apply Z.eqb_eq in Hp. eauto.
  - intros (t & Hin & Hp). exists (k, t). split; auto.
    apply filter_In. split; auto. simpl. now apply Z.eqb_eq.
Qed.

(** The names popped are exactly the names after the first in a group. *)
Lemma In_pops (k : string) (ts : odict T) :
  In k (pops_of (shared_of (group_names ts [])))
  <-> exists p, In k (tl (keys_at p ts)).
Proof.
  unfold pops_of, shared_of. rewrite in_concat. split.
  - intros (l & Hl & Hk). apply in_map_iff in Hl.
    destruct Hl as (names & <- & Hn). apply filter_In in Hn.
    destruct Hn as (Hn & _). apply in_map_iff in Hn.
    destruct Hn as ([p ns] & E & Hin). simpl in E. subst ns.
    exists p. apply names_at_entry in Hin.
    + rewrite names_at_group in Hin. simpl in Hin. now rewrite Hin.
    + apply group_names_NoDup. constructor.
  - intros (p & Hk). exists (tl (keys_at p ts)). split; auto.
    apply in_map. apply filter_In. split.
    + apply in_map_iff. exists (p, keys_at p ts). split; auto.
      pose proof (names_at_group p ts []) as E. simpl in E. rewrite <- E.
      apply names_at_present. rewrite E.
      intros E0. rewrite E0 in Hk. contradiction.
    + destruct (keys_at p ts) as [|a [|b l]]; simpl in *; tauto.
Qed.

Lemma keys_at_app (p : Z) (a b : odict T) :
  keys_at p (a ++ b) = keys_at p a ++ keys_at p b.
Proof. unfold keys_at, keys. now rewrite filter_app, map_app. Qed.

Lemma ptrs_In (p : Z) (ts : odict T) :
  In p (ptrs ts) <-> keys_at p ts <> [].
Proof.
  unfold ptrs. rewrite in_map_iff. split.
  - intros ([k t] & E & Hin). simpl in E.
    assert (Hk : In k (keys_at p ts)) by (apply keys_at_In; eauto).
    intros E0. now rewrite E0 in Hk.
  - intros Hne. destruct (keys_at p ts) as [|k l] eqn:E; [congruence|].
    assert (Hk : In k (keys_at p ts)) by (rewrite E; now left).
    apply keys_at_In in Hk. destruct Hk as (t & Hin & Hp).
    now exists (k, t).
Qed.

(** An entry is popped exactly when an earlier entry has its buffer key. *)
Lemma popped_iff_earlier (ts pre suf : odict T) (k : string) (t : T) :
  wf_dict ts -> ts = pre ++ (k, t) :: suf ->
  In k (pops_of (shared_of (group_names ts []))) <-> In (data_ptr t) (ptrs pre).
Proof.
  intros Hwf Ets. rewrite In_pops, ptrs_In. split.
  - intros (p & Hk).
    assert (Hp : p = data_ptr t).
    { apply tl_incl in Hk. apply keys_at_In in Hk.
      destruct Hk as (t' & Hin & Hp). subst p. f_equal.
      apply (wf_dict_unique ts k t' t Hwf Hin). subst ts.
      apply in_or_app. right. now left. }
    subst p. intros E0.
    rewrite Ets, keys_at_app, keys_at_cons, Z.eqb_refl, E0 in Hk.
    simpl in Hk. apply keys_at_incl in Hk.
    unfold wf_dict in Hwf. rewrite Ets in Hwf. unfold keys in Hwf.
    rewrite map_app in Hwf. simpl in Hwf.
    apply NoDup_remove_2 in Hwf. apply Hwf, in_or_app. now right.
  - intros Hne. exists (data_ptr t).
    rewrite Ets, keys_at_app, keys_at_cons, Z.eqb_refl.
    destruct (keys_at (data_ptr t) pre) as [|a l]; [congruence|].
    simpl. apply in_or_app. right. now left.
Qed.

Lemma filter_pops_keep_first (ts : odict T) :
  wf_dict ts ->
  forall (suf pre : odict T) (seen : list Z),
    ts = pre ++ suf ->
    (forall p, In p seen <-> In p (ptrs pre)) ->
    filter (fun kt => negb (mem_str (fst kt)
                                    (pops_of (shared_of (group_names ts [])))))
           suf
    = keep_first_per_buffer seen suf.
Proof.
  intros Hwf. induction suf as [|[k t] suf IH]; intros pre seen Ets Hseen.
  - reflexivity.
  - simpl.
    pose proof (popped_iff_earlier ts pre suf k t Hwf Ets) as Hpop.
    assert (Ets' : ts = (pre ++ [(k, t)]) ++ suf)
      by (now rewrite <- app_assoc).
    destruct (existsb (Z.eqb (data_ptr t)) seen) eqn:Ex.
    + apply existsb_exists in Ex. destruct Ex as (q & Hq & E).
      apply Z.eqb_eq in E. subst q. apply Hseen in Hq.
      assert (Hm : mem_str k (pops_of (shared_of (group_names ts []))) = true)
        by (now apply mem_str_In, Hpop).
      rewrite Hm. simpl.
      apply (IH _ _ Ets'). intros p. rewrite Hseen. unfold ptrs.
      rewrite map_app, in_app_iff. simpl. split; [tauto|].
      intros [Hp|[<-|[]]]; auto.
    + assert (Hn : ~ In (data_ptr t) seen).
      { intros Hin. apply Bool.not_true_iff_false in Ex. apply Ex.
        apply existsb_exists. exists (data_ptr t). split; auto.
        apply Z.eqb_refl. }
      assert (Hm : mem_str k (pops_of (shared_of (group_names ts []))) = false).
      { apply mem_str_false. intros Hin. apply Hn, Hseen, Hpop, Hin. }
      rewrite Hm. simpl. f_equal.
      apply (IH _ _ Ets'). intros p. unfold ptrs.
      rewrite map_app, in_app_iff. simpl. rewrite Hseen. unfold ptrs. tauto.
Qed.

Lemma group_loop_tensors (ts : odict T) (tmp : list (Z * list string)) :
  group_loop (tensor_dict ts) tmp = Ok (group_names ts tmp).
Proof.
  revert tmp. induction ts as [|[k t] ts IH]; intros tmp; simpl; auto.
Qed.

Lemma get_shared_weights_tensors (ts : odict T) :
  get_shared_weights (VDict (tensor_dict ts))
  = Ok (shared_of (group_names ts [])).
Proof. unfold get_shared_weights. simpl. now rewrite group_loop_tensors. Qed.

Lemma filter_tensor_dict (f : string -> bool) (ts : odict T) :
  filter (fun kv => f (fst kv)) (tensor_dict ts)
  = tensor_dict (filter (fun kt => f (fst kt)) ts).
Proof.
  induction ts as [|[k t] ts IH]; simpl; auto.
  destruct (f k); simpl; now rewrite IH.
Qed.

Lemma keys_tensor_dict (ts : odict T) : keys (tensor_dict ts) = keys ts.
Proof. unfold keys, tensor_dict. rewrite map_map. reflexivity. Qed.

(** The resolver of the script computes what the specification words say:
    on a dictionary of tensors it never raises and keeps, in order, the
    first entry of every buffer key. *)
Lemma resolve_aliases_refines (ts : odict T) :
  wf_dict ts ->
  resolve_aliases (VDict (tensor_dict ts))
  = Ok (tensor_dict (keep_first_per_buffer [] ts)).
Proof.
  intros Hwf. unfold resolve_aliases.
  rewrite get_shared_weights_tensors. simpl.
  rewrite drop_shared_pops, pop_names_filter.
  - f_equal.
    rewrite (filter_tensor_dict
               (fun k => negb (mem_str k (pops_of (shared_of (group_names ts [])))))).
    f_equal. apply (filter_pops_keep_first ts Hwf ts [] []); auto.
    simpl. tauto.
  - apply pops_NoDup. fold (all_names (group_names ts [])).
    apply (Permutation_NoDup (l := keys ts ++ [])).
    + symmetry. apply (all_names_group ts []).
    + now rewrite app_nil_r.
  - rewrite keys_tensor_dict. intros k Hk. apply In_pops in Hk.
    destruct Hk as (p & Hk). apply tl_incl in Hk. now apply keys_at_incl in Hk.
Qed.



Lemma keep_first_fresh (ts : odict T) (seen : list Z) :
  NoDup (ptrs (keep_first_per_buffer seen ts))
  /\ forall p, In p (ptrs (keep_first_per_buffer seen ts)) -> ~ In p seen.
Proof.
  revert seen. induction ts as [|[k t] ts IH]; intros seen.
  - split; [constructor | intros p []].
  - cbn [keep_first_per_buffer].
    destruct (existsb (Z.eqb (data_ptr t)) seen) eqn:Ex.
    + apply IH.
    + destruct (IH (data_ptr t :: seen)) as (Hnd & Hfresh).
      unfold ptrs in *. cbn [map snd]. split.
      * constructor; auto. intros Hin. apply (Hfresh _ Hin). now left.
      * intros p [<-|Hin].
        -- intros Hs. apply Bool.not_true_iff_false in Ex. apply Ex.
           apply existsb_exists. exists (data_ptr t).
           split; [exact Hs | apply Z.eqb_refl].
        -- intros Hs. apply (Hfresh _ Hin). now right.
Qed.

Lemma keys_at_short (p : Z) (ts : odict T) :
  NoDup (ptrs ts) -> (List.length (keys_at p ts) <= 1)%nat.
Proof.
  induction ts as [|[k t] ts IH]; intros Hnd.
  - cbn. lia.
  - unfold ptrs in Hnd. cbn [map snd] in Hnd.
    inversion Hnd as [|? ? Hp Hr]; subst.
    rewrite keys_at_cons. destruct (Z.eqb_spec p (data_ptr t)) as [->|Hne].
    + destruct (keys_at (data_ptr t) ts) as [|a l] eqn:E; [cbn; lia|].
      exfalso. apply Hp. apply ptrs_In. congruence.
    + now apply IH.
Qed.

(** Pairwise distinct buffer keys: no group has more than one name. *)
Lemma no_shared_weights (ts : odict T) :
  NoDup (ptrs ts) -> shared_of (group_names ts []) = [].
Proof.
  intros Hnd. unfold shared_of.
  destruct (filter _ _) as [|names l] eqn:E; [reflexivity|].
  exfalso.
  assert (Hin : In names (filter (fun names => (1 <? List.length names)%nat)
                                 (map snd (group_names ts []))))
    by (rewrite E; now left).
  apply filter_In in Hin. destruct Hin as (Hin & Hlen).
  apply in_map_iff in Hin. destruct Hin as ([p ns] & Ens & Hin).
  cbn in Ens. subst ns.
  apply names_at_entry in Hin; [|apply group_names_NoDup; constructor].
  rewrite names_at_group in Hin. cbn [names_at app] in Hin.
  pose proof (keys_at_short p ts Hnd) as Hs. rewrite Hin in Hs.
  apply Nat.ltb_lt in Hlen. lia.
Qed.






(** C9.  The Alias Resolver is idempotent on a dictionary of tensors:
    run on its own output, [get_shared_weights] finds no group with more
    than one name and the resolver returns that output unchanged. *)
Theorem alias_resolution_idempotent (ts : odict T) :
  wf_dict ts ->
  resolve_aliases (VDict (tensor_dict ts))
  = Ok (tensor_dict (keep_first_per_buffer [] ts))
  /\ get_shared_weights (VDict (tensor_dict (keep_first_per_buffer [] ts)))
     = Ok []
  /\ resolve_aliases (VDict (tensor_dict (keep_first_per_buffer [] ts)))
     = Ok (tensor_dict (keep_first_per_buffer [] ts)).
Proof.
  intros Hwf. split; [now apply resolve_aliases_refines|].
  assert (Hs : get_shared_weights
                 (VDict (tensor_dict (keep_first_per_buffer [] ts))) = Ok []).
  { rewrite get_shared_weights_tensors. f_equal.
    apply no_shared_weights. apply keep_first_fresh. }
  split; [exact Hs|].
  unfold resolve_aliases. rewrite Hs. reflexivity.
Qed.

End AliasFacts.

(** ** Data pointers and storage *)

Section StorageFacts.
Context {T : Type} `{StorageContract T}.









End StorageFacts.

(** ** Binary64 rounding of a quotient *)

Section FloatFacts.

Lemma pow2_gt0 (k : Z) : 0 < 2 ^ Z.max 0 k.
Proof. apply Z.pow_pos_nonneg; lia. Qed.

Lemma scaled_le (n d a b c : Z) :
  0 <= a -> 0 <= b -> 0 <= c ->
  d * 2 ^ (a + c) <= n * 2 ^ (b + c) <-> d * 2 ^ a <= n * 2 ^ b.
Proof.
  intros Ha Hb Hc. rewrite !Z.pow_add_r by assumption.
  assert (Hp : 0 < 2 ^ c) by (apply Z.pow_pos_nonneg; lia).
  rewrite !Z.mul_assoc. symmetry. now apply Z.mul_le_mono_pos_r.
Qed.

(** Only the difference of the two exponents matters. *)
Lemma ge_pow2_iff (n d k a b : Z) :
  0 <= a -> 0 <= b -> a - b = k ->
  ge_pow2 n d k = true <-> d * 2 ^ a <= n * 2 ^ b.
Proof.
  intros Ha Hb Hk. unfold ge_pow2, shl. rewrite Z.leb_le.
  pose proof (scaled_le n d (Z.max 0 k) (Z.max 0 (- k)) (a - Z.max 0 k)) as S.
  replace (Z.max 0 k + (a - Z.max 0 k)) with a in S by lia.
  replace (Z.max 0 (- k) + (a - Z.max 0 k)) with b in S by lia.
  symmetry. apply S; lia.
Qed.

Lemma ge_pow2_false_iff (n d k a b : Z) :
  0 <= a -> 0 <= b -> a - b = k ->
  ge_pow2 n d k = false <-> n * 2 ^ b < d * 2 ^ a.
Proof.
  intros Ha Hb Hk. rewrite <- Bool.not_true_iff_false.
  rewrite (ge_pow2_iff n d k a b Ha Hb Hk). lia.
Qed.

Lemma binade_spec (n d : Z) :
  0 < n -> 0 < d ->
  ge_pow2 n d (binade n d) = true /\ ge_pow2 n d (binade n d + 1) = false.
Proof.
  intros Hn Hd.
  pose proof (Z.log2_spec n Hn) as Ln. pose proof (Z.log2_spec d Hd) as Ld.
  pose proof (Z.log2_nonneg n) as Nn. pose proof (Z.log2_nonneg d) as Nd.
  set (ln := Z.log2 n) in *. set (ld := Z.log2 d) in *.
  assert (Pn : 2 ^ Z.succ ln = 2 * 2 ^ ln) by (apply Z.pow_succ_r; lia).
  assert (Pd : 2 ^ Z.succ ld = 2 * 2 ^ ld) by (apply Z.pow_succ_r; lia).
  assert (Lo : ge_pow2 n d (ln - ld - 1) = true).
  { apply (ge_pow2_iff n d _ ln (Z.succ ld)); try lia. nia. }
  assert (Hi : ge_pow2 n d (ln - ld + 1) = false).
  { apply (ge_pow2_false_iff n d _ (Z.succ ln) ld); try lia. nia. }
  unfold binade. fold ln ld.
  destruct (ge_pow2 n d (ln - ld)) eqn:E.
  - split; assumption.
  - split; [assumption|]. now replace (ln - ld - 1 + 1) with (ln - ld) by lia.
Qed.

Lemma round_half_even_near (n d : Z) :
  0 < d -> n / d <= round_half_even n d <= n / d + 1.
Proof.
  intros Hd. unfold round_half_even.
  destruct (2 * (n mod d) <? d); [lia|].
  destruct (d <? 2 * (n mod d)); [lia|].
  destruct (Z.even (n / d)); lia.
Qed.

Lemma round_half_even_bounds (n d lo hi : Z) :
  0 < d -> lo * d <= n -> n < hi * d ->
  lo <= round_half_even n d <= hi.
Proof.
  intros Hd Hlo Hhi. pose proof (round_half_even_near n d Hd) as Hr.
  assert (lo <= n / d) by (apply Z.div_le_lower_bound; lia).
  assert (n / d < hi) by (apply Z.div_lt_upper_bound; lia).
  lia.
Qed.

(** The rounded quotient exceeds an odd integer [L] exactly from the
    midpoint [L + 1/2] on: the tie goes to the even neighbour [L + 1]. *)
Lemma round_half_even_gt_odd (n d L : Z) :
  0 < d -> Z.odd L = true ->
  L < round_half_even n d <-> (2 * L + 1) * d <= 2 * n.
Proof.
  intros Hd HL. unfold round_half_even.
  pose proof (Z.div_mod n d ltac:(lia)) as E.
  pose proof (Z.mod_pos_bound n d Hd) as B.
  set (q := n / d) in *. set (r := n mod d) in *.
  destruct (Z.ltb_spec (2 * r) d) as [H1|H1]; [nia|].
  destruct (Z.ltb_spec d (2 * r)) as [H2|H2]; [nia|].
  destruct (Z.even q) eqn:Ev.
  - assert (q <> L).
    { intros ->. rewrite <- Z.negb_odd, HL in Ev. discriminate. }
    nia.
  - nia.
Qed.

(** In the normal range the result has a 53-bit mantissa. *)
Lemma round_pos_normal (n d : Z) :
  0 < n -> 0 < d -> -1022 <= binade n d ->
  exists m, round_pos n d = Dyadic m (binade n d - 52)
            /\ 2 ^ 52 <= m <= 2 ^ 53
            /\ m = round_half_even (shl n (52 - binade n d))
                                   (shl d (binade n d - 52)).
Proof.
  intros Hn Hd Hk. destruct (binade_spec n d Hn Hd) as (Lo & Hi).
  set (k := binade n d) in *. unfold round_pos. fold k.
  rewrite Z.max_l by lia.
  replace (- (k - 52)) with (52 - k) by lia.
  eexists. split; [reflexivity|]. split; [|reflexivity].
  pose proof (pow2_gt0 (k - 52)) as P1. pose proof (pow2_gt0 (52 - k)) as P2.
  apply round_half_even_bounds; unfold shl.
  - nia.
  - apply (ge_pow2_iff n d k (Z.max 0 (k - 52) + 52) (Z.max 0 (52 - k))) in Lo;
      try lia.
    rewrite Z.pow_add_r in Lo by lia. lia.
  - apply (ge_pow2_false_iff n d (k + 1) (Z.max 0 (k - 52) + 53)
                              (Z.max 0 (52 - k))) in Hi; try lia.
    rewrite Z.pow_add_r in Hi by lia. lia.
Qed.

(** [0.01.hex()] is [0x1.47ae147ae147bp-7]. *)
Lemma float_0_01_value : float_0_01 = Dyadic 5764607523034235 (-59).
Proof. vm_compute. reflexivity. Qed.

(** [(1/3).hex()] is [0x1.5555555555555p-2]. *)
Example one_third : binary64_of_ratio 1 3 = Dyadic 6004799503160661 (-54).
Proof. vm_compute. reflexivity. Qed.

(** [-7/1000]: the sign is that of the quotient. *)
Example negative_quotient :
  binary64_of_ratio (-7) 1000 = Dyadic (-8070450532247929) (-60).
Proof. vm_compute. reflexivity. Qed.

(** [2^53 + 1] lies halfway between two doubles and goes to the even
    one, [2^53]; [2^53 + 3] goes up to [2^53 + 4]. *)
Example ties_to_even :
  binary64_of_ratio (2 ^ 53 + 1) 1 = Dyadic (2 ^ 52) 1
  /\ binary64_of_ratio (2 ^ 53 + 3) 1 = Dyadic (2 ^ 52 + 2) 1.
Proof. vm_compute. split; reflexivity. Qed.

Lemma round_half_even_nonneg (n d : Z) :
  0 <= n -> 0 < d -> 0 <= round_half_even n d.
Proof.
  intros Hn Hd. pose proof (round_half_even_near n d Hd).
  assert (0 <= n / d) by (apply Z.div_pos; lia). lia.
Qed.

Lemma pow2_mono (a b : Z) : 0 <= a <= b -> 2 ^ a <= 2 ^ b.
Proof. intros Hab. apply Z.pow_le_mono_r; lia. Qed.

(** For a legacy file below 2^53 bytes the floating-point test of
    [check_file_size] decides the exact inequality [y < 100 * x], that is
    [x / y > 1/100]. *)
Lemma drift_test_exact (x y : Z) :
  0 < y < 2 ^ 53 ->
  dy_ltb float_0_01 (binary64_of_ratio x y) = (y <? 100 * x).
Proof.
  intros Hy. rewrite float_0_01_value. unfold binary64_of_ratio.
  destruct (Z.eqb_spec x 0) as [->|Hx0].
  { vm_compute dy_ltb. symmetry. apply Z.ltb_ge. lia. }
  destruct (Z.ltb_spec (Z.sgn x * Z.sgn y) 0) as [Hs|Hs].
  - (* negative quotient *)
    assert (Hx : x < 0) by nia.
    assert (Hm : 0 <= mant (round_pos (Z.abs x) (Z.abs y))).
    { unfold round_pos. cbn [mant expo]. apply round_half_even_nonneg.
      - unfold shl. pose proof (pow2_gt0 (- Z.max (binade (Z.abs x) (Z.abs y) - 52) (-1074))). nia.
      - unfold shl. pose proof (pow2_gt0 (Z.max (binade (Z.abs x) (Z.abs y) - 52) (-1074))). nia. }
    unfold dy_ltb, shl. cbn [mant expo].
    set (m := mant (round_pos (Z.abs x) (Z.abs y))) in *.
    set (e := expo (round_pos (Z.abs x) (Z.abs y))).
    pose proof (pow2_gt0 (-59 - e)). pose proof (pow2_gt0 (e - -59)).
    transitivity false; [apply Z.ltb_ge; nia | symmetry; apply Z.ltb_ge; lia].
  - (* positive quotient *)
    assert (Hx : 0 < x) by nia.
    rewrite (Z.abs_eq x), (Z.abs_eq y) by lia.
    destruct (binade_spec x y Hx (proj1 Hy)) as (Lo & Hi).
    assert (Hk : -53 <= binade x y).
    { destruct (Z.le_gt_cases (-53) (binade x y)) as [|Hlt]; auto.
      apply (ge_pow2_false_iff x y _ 0 (- (binade x y + 1))) in Hi; try lia.
      pose proof (pow2_mono 53 (- (binade x y + 1)) ltac:(lia)).
      rewrite Z.pow_0_r in Hi. nia. }
    destruct (round_pos_normal x y Hx (proj1 Hy) ltac:(lia))
      as (m & -> & Hm & Em).
    set (k := binade x y) in *.
    unfold dy_ltb, shl. cbn [mant expo].
    destruct (Z.lt_trichotomy k (-7)) as [Hlt|[Heq|Hgt]].
    + (* below 2^-7 *)
      apply (ge_pow2_false_iff x y _ 0 (- (k + 1))) in Hi; try lia.
      pose proof (pow2_mono 7 (- (k + 1)) ltac:(lia)) as P.
      rewrite Z.pow_0_r in Hi.
      replace (Z.max 0 (k - 52 - -59)) with 0 by lia.
      pose proof (pow2_mono 1 (Z.max 0 (-59 - (k - 52))) ltac:(lia)) as Q.
      rewrite Z.pow_0_r.
      change (2 ^ 7) with 128 in P. change (2 ^ 1) with 2 in Q.
      change (2 ^ 53) with 9007199254740992 in *.
      transitivity false; [apply Z.ltb_ge; nia | symmetry; apply Z.ltb_ge; nia].
    + (* the binade of 0.01 *)
      rewrite Heq in *. simpl Z.max. rewrite Z.pow_0_r, !Z.mul_1_r.
      change (shl x (52 - -7)) with (x * 2 ^ 59) in Em.
      change (shl y (-7 - 52)) with (y * 1) in Em.
      rewrite Z.mul_1_r in Em.
      assert (Hodd : Z.odd 5764607523034235 = true) by reflexivity.
      pose proof (round_half_even_gt_odd (x * 2 ^ 59) y _ (proj1 Hy) Hodd) as R.
      rewrite <- Em in R.
      change (2 ^ 59) with 576460752303423488 in R.
      change (2 ^ 53) with 9007199254740992 in *.
      destruct (Z.ltb_spec 5764607523034235 m) as [H1|H1];
        symmetry; [apply Z.ltb_lt | apply Z.ltb_ge]; lia.
    + (* from 2^-6 on *)
      replace (Z.max 0 (-59 - (k - 52))) with 0 by lia.
      rewrite Z.pow_0_r, Z.mul_1_r.
      pose proof (pow2_mono 1 (Z.max 0 (k - 52 - -59)) ltac:(lia)) as Q.
      change (2 ^ 1) with 2 in Q.
      change (2 ^ 53) with 9007199254740992 in *.
      change (2 ^ 52) with 4503599627370496 in *.
      assert (Hyx : y <= 64 * x).
      { destruct (Z.le_gt_cases 0 k) as [Hk0|Hk0].
        - apply (ge_pow2_iff x y _ k 0) in Lo; try lia.
          pose proof (pow2_mono 0 k ltac:(lia)) as P.
          rewrite Z.pow_0_r in *. nia.
        - apply (ge_pow2_iff x y _ 0 (- k)) in Lo; try lia.
          pose proof (pow2_mono (- k) 6 ltac:(lia)) as P.
          change (2 ^ 6) with 64 in P. rewrite Z.pow_0_r in Lo.
          pose proof (pow2_gt0 (- k)). nia. }
      transitivity true; [apply Z.ltb_lt; nia | symmetry; apply Z.ltb_lt; lia].
Qed.

End FloatFacts.

(** ** The size-drift check *)

Section ScriptFacts.
Context {W T : Type} `{TorchTensor T} `{Runtime W T}.

(** [check_file_size] once both sizes have been read. *)
Lemma check_file_size_run (sf_filename pt_filename : string) (s : State W T)
  (sf_size pt_size : N) :
  os_stat_size sf_filename (world s) = Ok sf_size ->
  os_stat_size pt_filename (world s) = Ok pt_size ->
  check_file_size sf_filename pt_filename s
  = (match py_truediv (Z.of_N sf_size - Z.of_N pt_size) (Z.of_N pt_size) with
     | Ok ratio =>
         if dy_ltb float_0_01 ratio
         then Raise (RuntimeError
                       (size_message sf_filename sf_size pt_filename pt_size))
         else Ok tt
     | Raise e => Raise e
     end,
     log s [EvStat sf_filename; EvStat pt_filename]).
Proof.
  intros Hsf Hpt. unfold check_file_size, bind, reading, lift, raise, ret, log.
  cbn [world trace]. rewrite Hsf, Hpt. rewrite <- app_assoc. cbn [app].
  destruct (py_truediv _ _) as [ratio|e]; [|reflexivity].
  destruct (dy_ltb float_0_01 ratio); reflexivity.
Qed.

(** The check when it reads a legacy file below 2^53 bytes: it raises
    exactly when the container is more than 1% larger. *)
Lemma check_file_size_exact (sf_filename pt_filename : string) (s : State W T)
  (sf_size pt_size : N) :
  os_stat_size sf_filename (world s) = Ok sf_size ->
  os_stat_size pt_filename (world s) = Ok pt_size ->
  (0 < pt_size < 2 ^ 53)%N ->
  fst (check_file_size sf_filename pt_filename s)
  = if Z.of_N pt_size <? 100 * (Z.of_N sf_size - Z.of_N pt_size)
    then Raise (RuntimeError
                  (size_message sf_filename sf_size pt_filename pt_size))
    else Ok tt.
Proof.
  intros Hsf Hpt Hrange. rewrite (check_file_size_run _ _ _ _ _ Hsf Hpt).
  cbn [fst]. unfold py_truediv.
  assert (Hz : 0 < Z.of_N pt_size < 2 ^ 53).
  { change (2 ^ 53) with (Z.of_N (2 ^ 53)). lia. }
  destruct (Z.eqb_spec (Z.of_N pt_size) 0) as [E|_]; [lia|].
  now rewrite drift_test_exact.
Qed.

Lemma check_file_size_ok_inv (sf_filename pt_filename : string) (s : State W T) :
  fst (check_file_size sf_filename pt_filename s) = Ok tt ->
  exists sf_size pt_size : N,
    os_stat_size sf_filename (world s) = Ok sf_size
    /\ os_stat_size pt_filename (world s) = Ok pt_size
    /\ pt_size <> 0%N
    /\ dy_ltb float_0_01
              (binary64_of_ratio (Z.of_N sf_size - Z.of_N pt_size)
                                 (Z.of_N pt_size)) = false.
Proof.
  destruct (os_stat_size sf_filename (world s)) as [sf_size|e] eqn:Hsf.
  2: { unfold check_file_size, bind, reading. cbn [world]. rewrite Hsf.
       discriminate. }
  destruct (os_stat_size pt_filename (world s)) as [pt_size|e] eqn:Hpt.
  2: { unfold check_file_size, bind, reading. cbn [world]. rewrite Hsf.
       cbn [world]. rewrite Hpt. discriminate. }
  rewrite (check_file_size_run _ _ _ _ _ Hsf Hpt). cbn [fst]. unfold py_truediv.
  intros Hok. exists sf_size, pt_size. repeat split.
  - intros ->. discriminate.
  - destruct (Z.of_N pt_size =? 0); [discriminate|].
    destruct (dy_ltb _ _); [discriminate | reflexivity].
Qed.

(** The size-drift check only reads: it leaves the world as it is. *)
Lemma check_file_size_world (sf_filename pt_filename : string) (s : State W T) :
  world (snd (check_file_size sf_filename pt_filename s)) = world s.
Proof.
  unfold check_file_size, bind, reading, lift, raise, ret. cbn [world].
  destruct (os_stat_size sf_filename (world s)); [|reflexivity]. cbn [world].
  destruct (os_stat_size pt_filename (world s)); [|reflexivity].
  destruct (py_truediv _ _); [|reflexivity].
  destruct (dy_ltb _ _); reflexivity.
Qed.

Lemma convert_file_run (pt_filename sf_filename : string) (c : bool)
  (s : State W T) :
  convert_file pt_filename sf_filename c s
  = match torch_load pt_filename (world s) with
    | Raise e => (Raise e, log s [EvTorchLoad pt_filename])
    | Ok obj =>
        match payload obj with
        | Raise e => (Raise e, log s [EvTorchLoad pt_filename])
        | Ok tensors =>
            deliver tensors pt_filename sf_filename c
                    (log s [EvTorchLoad pt_filename])
        end
    end.
Proof.
  unfold convert_file, payload, bind at 1, reading, log. cbn [world trace].
  destruct (torch_load pt_filename (world s)) as [obj|e]; [|reflexivity].
  unfold bind at 1, lift.
  destruct (unwrap_state_dict obj) as [loaded|e]; [|reflexivity].
  cbn [rbind]. unfold bind at 1.
  destruct (resolve_aliases loaded) as [items|e]; [|reflexivity].
  cbn [rbind]. unfold bind at 1.
  destruct (normalize items) as [tensors|e]; reflexivity.
Qed.

(** A successful delivery passed the size-drift check in the world it
    had just written. *)
Lemma deliver_ok_checked (tensors : odict T) (pt_filename sf_filename : string)
  (c : bool) (s : State W T) :
  fst (deliver tensors pt_filename sf_filename c s) = Ok tt ->
  exists tr,
    fst (check_file_size sf_filename pt_filename
           (MkState (written_world tensors sf_filename (world s)) tr)) = Ok tt.
Proof.
  unfold deliver, written_world, bind at 1, writing.
  destruct (os_makedirs (posix_dirname sf_filename) (world s)) as [[[]|e] w1];
    [|discriminate].
  unfold bind at 1. cbn [world trace snd].
  destruct (save_file tensors sf_filename [("format", "pt")] w1) as [[[]|e] w2];
    [|discriminate].
  unfold bind at 1. cbn [snd].
  match goal with
  | |- context [check_file_size _ _ ?st] => set (s2 := st)
  end.
  intros Hok. exists (trace s2). change (MkState w2 (trace s2)) with s2.
  destruct (check_file_size sf_filename pt_filename s2) as [[[]|e] s3] eqn:E.
  - reflexivity.
  - discriminate.
Qed.

(** C1 (amended).  The size-drift check bounds growth only.  A run of
    [convert_file] that completes has read, in the world it had just
    written, a container size and a non-zero legacy size whose binary64
    quotient [(sf_size - pt_size) / pt_size] does not exceed the double
    [0.01]; for a legacy file below 2^53 bytes this is the exact bound
    [(sf_size - pt_size) / pt_size <= 1/100].  For such a file
    [check_file_size] raises its [RuntimeError] exactly when the
    container is more than 1% larger than the legacy file; a smaller
    container never raises. *)
Theorem size_drift_bounds_growth (pt_filename sf_filename : string) (c : bool)
  (s : State W T) :
  (fst (convert_file pt_filename sf_filename c s) = Ok tt ->
   exists (obj : odict (PyVal T)) (tensors : odict T) (sf_size pt_size : N),
     torch_load pt_filename (world s) = Ok obj
     /\ payload obj = Ok tensors
     /\ os_stat_size sf_filename (written_world tensors sf_filename (world s))
        = Ok sf_size
     /\ os_stat_size pt_filename (written_world tensors sf_filename (world s))
        = Ok pt_size
     /\ pt_size <> 0%N
     /\ dy_ltb float_0_01
               (binary64_of_ratio (Z.of_N sf_size - Z.of_N pt_size)
                                  (Z.of_N pt_size)) = false
     /\ ((pt_size < 2 ^ 53)%N -> growth_ok sf_size pt_size))
  /\
  (forall (s' : State W T) (sf_size pt_size : N),
     os_stat_size sf_filename (world s') = Ok sf_size ->
     os_stat_size pt_filename (world s') = Ok pt_size ->
     (0 < pt_size < 2 ^ 53)%N ->
     (~ growth_ok sf_size pt_size ->
      fst (check_file_size sf_filename pt_filename s')
      = Raise (RuntimeError
                 (size_message sf_filename sf_size pt_filename pt_size)))
     /\ (growth_ok sf_size pt_size ->
         fst (check_file_size sf_filename pt_filename s') = Ok tt)).
Proof.
  split.
  - rewrite convert_file_run.
    destruct (torch_load pt_filename (world s)) as [obj|e] eqn:Hload;
      [|discriminate].
    destruct (payload obj) as [tensors|e] eqn:Hpay; [|discriminate].
    intros Hok. apply deliver_ok_checked in Hok. destruct Hok as (tr & Hok).
    apply check_file_size_ok_inv in Hok. cbn [world log] in Hok.
    destruct Hok as (sf_size & pt_size & Hsf & Hpt & Hnz & Hlt).
    exists obj, tensors, sf_size, pt_size.
    repeat (split; [first [reflexivity | assumption]|]).
    intros Hrange. unfold growth_ok.
    assert (Hz : 0 < Z.of_N pt_size < 2 ^ 53).
    { change (2 ^ 53) with (Z.of_N (2 ^ 53)). lia. }
    rewrite (drift_test_exact _ _ Hz) in Hlt. apply Z.ltb_ge in Hlt. exact Hlt.
  - intros s' sf_size pt_size Hsf Hpt Hrange.
    rewrite (check_file_size_exact _ _ _ _ _ Hsf Hpt Hrange). unfold growth_ok.
    destruct (Z.ltb_spec (Z.of_N pt_size)
                         (100 * (Z.of_N sf_size - Z.of_N pt_size)));
      split; intros; try reflexivity; lia.
Qed.

(** C10.  [check_file_size] divides by the size of the legacy file: once
    both sizes are read, a legacy file of 0 bytes makes it raise
    [ZeroDivisionError], whatever the container size, instead of
    returning or raising the size-drift error; for a non-zero size the
    division has a value and the check ends in the size-drift error or
    returns. *)
Theorem check_file_size_zero_division (sf_filename pt_filename : string)
  (s : State W T) (sf_size pt_size : N) :
  os_stat_size sf_filename (world s) = Ok sf_size ->
  os_stat_size pt_filename (world s) = Ok pt_size ->
  (pt_size = 0%N ->
   fst (check_file_size sf_filename pt_filename s) = Raise ZeroDivisionError)
  /\
  (pt_size <> 0%N ->
   exists ratio,
     py_truediv (Z.of_N sf_size - Z.of_N pt_size) (Z.of_N pt_size) = Ok ratio
     /\ fst (check_file_size sf_filename pt_filename s)
        = if dy_ltb float_0_01 ratio
          then Raise (RuntimeError
                        (size_message sf_filename sf_size pt_filename pt_size))
          else Ok tt).
Proof.
  intros Hsf Hpt. rewrite (check_file_size_run _ _ _ _ _ Hsf Hpt). cbn [fst].
  unfold py_truediv. split.
  - intros ->. reflexivity.
  - intros Hnz. destruct (Z.eqb_spec (Z.of_N pt_size) 0) as [E|_]; [lia|].
    eexists. split; reflexivity.
Qed.

(** ** The order of the calls *)

Lemma copy_loop_trace (files : list string) (src dst : string) (s : State W T) :
  exists evs,
    trace (snd (copy_loop files src dst s)) = trace s ++ evs
    /\ Forall copy_event evs.
Proof.
  revert s. induction files as [|file rest IH]; intros s.
  - exists []. split; [cbn; now rewrite app_nil_r | constructor].
  - cbn [copy_loop]. unfold bind at 1, reading. cbn [world trace].
    set (fp := posix_join src file).
    destruct (os_path_isfile fp (world s)
              && negb (py_endswith file ".bin" || py_endswith file ".py")).
    + unfold bind at 1, writing. cbn [world trace].
      destruct (shutil_copy fp dst (world s)) as [[[]|e] w'].
      * destruct (IH (MkState w' ((trace s ++ [EvIsFile fp]) ++ [EvCopy fp dst])))
          as (evs & E & F).
        exists (EvIsFile fp :: EvCopy fp dst :: evs). split.
        -- rewrite E. cbn [trace]. now rewrite <- !app_assoc.
        -- repeat constructor. exact F.
      * exists [EvIsFile fp; EvCopy fp dst]. split.
        -- cbn [snd trace]. now rewrite <- !app_assoc.
        -- repeat constructor.
    + unfold bind at 1, ret.
      destruct (IH (MkState (world s) (trace s ++ [EvIsFile fp])))
        as (evs & E & F).
      exists (EvIsFile fp :: evs). split.
      * rewrite E. cbn [trace]. now rewrite <- !app_assoc.
      * constructor; [exact I | exact F].
Qed.

Lemma copy_remaining_files_trace (src dst : string) (s : State W T) :
  exists evs,
    trace (snd (copy_remaining_files src dst s)) = trace s ++ evs
    /\ Forall copy_event evs.
Proof.
  unfold copy_remaining_files, bind, reading. cbn [world trace].
  destruct (os_listdir src (world s)) as [files|e].
  - destruct (copy_loop_trace files src dst
                (MkState (world s) (trace s ++ [EvListdir src])))
      as (evs & E & F).
    exists (EvListdir src :: evs). split.
    + rewrite E. cbn [trace]. now rewrite <- !app_assoc.
    + constructor; [exact I | exact F].
  - exists [EvListdir src]. split; [reflexivity | repeat constructor].
Qed.

Lemma check_file_size_trace (sf_filename pt_filename : string) (s : State W T) :
  exists evs,
    trace (snd (check_file_size sf_filename pt_filename s)) = trace s ++ evs
    /\ (exists rest, evs ++ rest = [EvStat sf_filename; EvStat pt_filename])
    /\ (fst (check_file_size sf_filename pt_filename s) = Ok tt ->
        evs = [EvStat sf_filename; EvStat pt_filename]).
Proof.
  unfold check_file_size, bind, reading, lift, raise, ret. cbn [world trace].
  destruct (os_stat_size sf_filename (world s)) as [sf_size|e].
  - cbn [world trace].
    exists [EvStat sf_filename; EvStat pt_filename].
    split; [|split; [exists []; reflexivity | reflexivity]].
    destruct (os_stat_size pt_filename (world s)) as [pt_size|e];
      [destruct (py_truediv _ _) as [ratio|e];
       [destruct (dy_ltb float_0_01 ratio)|]|];
      cbn [snd trace]; now rewrite <- !app_assoc.
  - exists [EvStat sf_filename].
    split; [reflexivity|]. split; [eexists; reflexivity | discriminate].
Qed.

Lemma deliver_trace_run (tensors : odict T) (pt_filename sf_filename : string)
  (c : bool) (s s' : State W T) (r : result unit) :
  deliver tensors pt_filename sf_filename c s = (r, s') ->
  exists copies tr,
    trace s' = trace s ++ tr
    /\ Forall copy_event copies
    /\ (exists rest,
          tr ++ rest = tl (stages pt_filename sf_filename tensors copies))
    /\ (r = Ok tt -> tr = tl (stages pt_filename sf_filename tensors copies)).
Proof.
  unfold deliver, stages. cbn [tl app].
  set (d := posix_dirname sf_filename).
  unfold bind, writing.
  destruct (os_makedirs d (world s)) as [[[]|e] w1].
  2: { intros E. inversion E; subst. exists [], [EvMakedirs d].
       split; [reflexivity|]. split; [constructor|].
       split; [eexists; reflexivity | discriminate]. }
  cbn [world trace].
  destruct (save_file tensors sf_filename [("format", "pt")] w1) as [[[]|e] w2].
  2: { intros E. inversion E; subst.
       exists [], [EvMakedirs d; EvSaveFile tensors sf_filename].
       split; [cbn [trace]; now rewrite <- !app_assoc|].
       split; [constructor|]. split; [eexists; reflexivity | discriminate]. }
  match goal with
  | |- context [check_file_size _ _ ?st] => set (s2 := st)
  end.
  assert (E2 : trace s2
               = trace s ++ [EvMakedirs d; EvSaveFile tensors sf_filename])
    by (subst s2; cbn [trace]; now rewrite <- !app_assoc).
  destruct (check_file_size_trace sf_filename pt_filename s2)
    as (evs & E3 & (rest3 & P3) & F3).
  destruct (check_file_size sf_filename pt_filename s2) as [[[]|e] s3].
  2: { intros E. inversion E; subst r s'.
       exists [], ([EvMakedirs d; EvSaveFile tensors sf_filename] ++ evs).
       cbn [snd] in *. split; [now rewrite E3, E2, <- !app_assoc|].
       split; [constructor|]. split; [|discriminate].
       exists (rest3 ++ [EvLoadFile sf_filename]).
       cbn [app]. rewrite app_assoc, P3. reflexivity. }
  cbn [snd fst] in *. rewrite (F3 eq_refl) in E3. clear F3 P3 rest3 evs.
  assert (Hc : exists copies,
             trace (snd ((if c
                          then copy_remaining_files (posix_dirname pt_filename) d
                          else ret tt) s3)) = trace s3 ++ copies
             /\ Forall copy_event copies).
  { destruct c.
    - apply copy_remaining_files_trace.
    - exists []. split; [cbn; now rewrite app_nil_r | constructor]. }
  destruct Hc as (copies & E4 & F4).
  destruct ((if c
             then copy_remaining_files (posix_dirname pt_filename) d
             else ret tt) s3) as [[[]|e] s4].
  2: { intros E. inversion E; subst r s'.
       exists copies,
         ([EvMakedirs d; EvSaveFile tensors sf_filename;
           EvStat sf_filename; EvStat pt_filename] ++ copies).
       cbn [snd] in *. split; [now rewrite E4, E3, E2, <- !app_assoc|].
       split; [exact F4|]. split; [|discriminate].
       exists [EvLoadFile sf_filename]. now rewrite <- app_assoc. }
  cbn [snd] in *. intros E.
  exists copies,
    ([EvMakedirs d; EvSaveFile tensors sf_filename;
      EvStat sf_filename; EvStat pt_filename]
       ++ copies ++ [EvLoadFile sf_filename]).
  split.
  - unfold roundtrip_check, bind, reading, lift in E. cbn [world trace] in E.
    destruct (load_file sf_filename (world s4)); inversion E; subst;
      cbn [trace]; now rewrite E4, E3, E2, <- !app_assoc.
  - split; [exact F4|]. split; [exists []; now rewrite app_nil_r | reflexivity].
Qed.

(** C2 (amended).  The calls of [convert_file] follow the order of the
    source: load the checkpoint, create the directory and write the
    container, read the two sizes for the size-drift check, copy the
    sidecar files, and only then reload the container for the round-trip
    check.  The events of every run form a prefix of that sequence, the
    whole sequence when the run succeeds, and the map written is the
    loaded checkpoint after alias resolution and normalization. *)
Theorem convert_file_stage_order (pt_filename sf_filename : string) (c : bool)
  (s : State W T) :
  exists (tensors : odict T) (copies tr : list (Event T)),
    trace (snd (convert_file pt_filename sf_filename c s)) = trace s ++ tr
    /\ Forall copy_event copies
    /\ (exists rest, tr ++ rest = stages pt_filename sf_filename tensors copies)
    /\ (fst (convert_file pt_filename sf_filename c s) = Ok tt ->
        tr = stages pt_filename sf_filename tensors copies)
    /\ (In (EvSaveFile tensors sf_filename) tr ->
        exists obj, torch_load pt_filename (world s) = Ok obj
                    /\ payload obj = Ok tensors).
Proof.
  rewrite convert_file_run.
  destruct (torch_load pt_filename (world s)) as [obj|e] eqn:Hload.
  2: { exists [], [], [EvTorchLoad pt_filename].
       split; [reflexivity|]. split; [constructor|].
       split; [eexists; reflexivity|]. split; [cbn [fst]; discriminate|].
       intros [Hin|[]]. discriminate. }
  destruct (payload obj) as [tensors|e] eqn:Hpay.
  2: { exists [], [], [EvTorchLoad pt_filename].
       split; [reflexivity|]. split; [constructor|].
       split; [eexists; reflexivity|]. split; [cbn [fst]; discriminate|].
       intros [Hin|[]]. discriminate. }
  destruct (deliver tensors pt_filename sf_filename c
              (log s [EvTorchLoad pt_filename])) as [r s'] eqn:Hrun.
  destruct (deliver_trace_run _ _ _ _ _ _ _ Hrun)
    as (copies & tr & E & F & (rest & P) & Q).
  cbn [fst snd].
  exists tensors, copies, (EvTorchLoad pt_filename :: tr).
  split; [rewrite E; cbn [log trace]; now rewrite <- app_assoc|].
  split; [exact F|]. split; [|split].
  - exists rest. unfold stages in *. cbn [app tl] in *. now rewrite P.
  - intros Hok. rewrite (Q Hok). reflexivity.
  - intros _. exists obj. split; [reflexivity | exact Hpay].
Qed.

(** The map of a [save_file] call is the payload of the checkpoint. *)
Lemma saved_map_is_payload (pt_filename sf_filename : string) (c : bool)
  (s : State W T) (tr : list (Event T)) (tensors : odict T) (path : string) :
  trace (snd (convert_file pt_filename sf_filename c s)) = trace s ++ tr ->
  In (EvSaveFile tensors path) tr ->
  exists obj, torch_load pt_filename (world s) = Ok obj
              /\ payload obj = Ok tensors.
Proof.
  rewrite convert_file_run. intros Etr Hin.
  destruct (torch_load pt_filename (world s)) as [obj|e] eqn:Hload.
  2: { cbn [snd log trace] in Etr. apply app_inv_head in Etr. subst tr.
       destruct Hin as [D|[]]. discriminate. }
  destruct (payload obj) as [tensors0|e] eqn:Hpay.
  2: { cbn [snd log trace] in Etr. apply app_inv_head in Etr. subst tr.
       destruct Hin as [D|[]]. discriminate. }
  destruct (deliver tensors0 pt_filename sf_filename c
              (log s [EvTorchLoad pt_filename])) as [r s'] eqn:Hrun.
  destruct (deliver_trace_run _ _ _ _ _ _ _ Hrun)
    as (copies & tr0 & E & F & (rest & P) & _).
  cbn [snd] in Etr. rewrite E in Etr. cbn [log trace] in Etr.
  rewrite <- app_assoc in Etr. apply app_inv_head in Etr. subst tr.
  exists obj. split; [reflexivity|].
  destruct Hin as [D|Hin]; [discriminate|].
  assert (Hst : In (EvSaveFile tensors path)
                   (tl (stages pt_filename sf_filename tensors0 copies))).
  { rewrite <- P. apply in_or_app. now left. }
  unfold stages in Hst. cbn [app tl In] in Hst.
  destruct Hst as [D|[D|[D|[D|Hst]]]]; try discriminate.
  - inversion D; subst. exact Hpay.
  - exfalso. apply in_app_or in Hst. destruct Hst as [Hc|[D|[]]].
    + rewrite Forall_forall in F. exact (F _ Hc).
    + discriminate.
Qed.

(** ** The round-trip check *)

Lemma compare_loop_first_mismatch (tensors reloaded : odict T) :
  incl (keys tensors) (keys reloaded) ->
  compare_loop tensors reloaded
  = match first_mismatch tensors reloaded with
    | Some k => Raise (RuntimeError (mismatch_message k))
    | None => Ok tt
    end.
Proof.
  induction tensors as [|[k v] r IH]; intros Hin.
  - reflexivity.
  - cbn [compare_loop first_mismatch].
    assert (Hk : In k (keys reloaded)) by (apply Hin; now left).
    assert (Hget : exists v', dict_get k reloaded = Ok v').
    { clear - Hk. induction reloaded as [|[k' w] d IHd]; [contradiction|].
      cbn [dict_get]. destruct (String.eqb_spec k k') as [->|Hne]; eauto.
      destruct Hk as [E|Hk]; [cbn in E; congruence | auto]. }
    destruct Hget as (v' & ->). cbn [rbind].
    destruct (torch_equal v v'); [|reflexivity].
    apply IH. intros x Hx. apply Hin. now right.
Qed.

Lemma first_mismatch_some (tensors reloaded : odict T) (k : string) :
  first_mismatch tensors reloaded = Some k ->
  exists v v', In (k, v) tensors /\ dict_get k reloaded = Ok v'
               /\ torch_equal v v' = false.
Proof.
  induction tensors as [|[k0 v0] r IH]; cbn [first_mismatch].
  - discriminate.
  - destruct (dict_get k0 reloaded) as [v'|e] eqn:G.
    + destruct (torch_equal v0 v') eqn:Eq.
      * intros Hk. destruct (IH Hk) as (v & w & Hin & Hg & Hne).
        exists v, w. split; [now right | auto].
      * intros Hk. inversion Hk; subst k0.
        exists v0, v'. split; [now left | auto].
    + intros Hk. destruct (IH Hk) as (v & w & Hin & Hg & Hne).
      exists v, w. split; [now right | auto].
Qed.

Lemma deliver_ok_roundtrip (tensors : odict T) (pt_filename sf_filename : string)
  (c : bool) (s s' : State W T) :
  deliver tensors pt_filename sf_filename c s = (Ok tt, s') ->
  exists reloaded,
    load_file sf_filename (world s') = Ok reloaded
    /\ compare_loop tensors reloaded = Ok tt.
Proof.
  unfold deliver, bind, writing.
  destruct (os_makedirs _ _) as [[[]|e] w1]; [|discriminate].
  destruct (save_file _ _ _ _) as [[[]|e] w2]; [|discriminate].
  destruct (check_file_size _ _ _) as [[[]|e] s3]; [|discriminate].
  destruct ((if c
             then copy_remaining_files (posix_dirname pt_filename)
                                       (posix_dirname sf_filename)
             else ret tt) s3) as [[[]|e] s4]; [|discriminate].
  unfold roundtrip_check, bind, reading, lift. cbn [world trace].
  destruct (load_file sf_filename (world s4)) as [reloaded|e] eqn:L;
    [|discriminate].
  intros E. inversion E as [[Hc Hs]]. cbn [world]. rewrite L. eauto.
Qed.

Lemma compare_loop_ok (tensors reloaded : odict T) :
  compare_loop tensors reloaded = Ok tt ->
  forall k v, In (k, v) tensors ->
              exists v', dict_get k reloaded = Ok v' /\ torch_equal v v' = true.
Proof.
  induction tensors as [|[k0 v0] r IH]; cbn [compare_loop].
  - intros _ k v [].
  - destruct (dict_get k0 reloaded) as [v'|e] eqn:G; [|discriminate].
    cbn [rbind]. destruct (torch_equal v0 v') eqn:Eq; [|discriminate].
    intros Hok k v [E|Hin].
    + inversion E; subst. eauto.
    + now apply IH.
Qed.

Lemma compare_loop_raises (tensors reloaded : odict T) (e : PyExn) :
  compare_loop tensors reloaded = Raise e ->
  (exists k v v',
     In (k, v) tensors /\ dict_get k reloaded = Ok v'
     /\ torch_equal v v' = false /\ e = RuntimeError (mismatch_message k))
  \/ (exists k,
        In k (keys tensors) /\ dict_contains k reloaded = false
        /\ e = KeyError k).
Proof.
  induction tensors as [|[k0 v0] r IH]; cbn [compare_loop].
  - discriminate.
  - destruct (dict_get k0 reloaded) as [v'|e0] eqn:G; cbn [rbind].
    + destruct (torch_equal v0 v') eqn:Eq.
      * intros He. destruct (IH He) as [(k & v & w & Hin & R)|(k & Hin & R)].
        -- left. exists k, v, w. split; [now right | exact R].
        -- right. exists k. split; [now right | exact R].
      * intros He. inversion He; subst e. left. exists k0, v0, v'.
        repeat split; auto. now left.
    + intros He. inversion He; subst e0. right.
      assert (Hk : dict_contains k0 reloaded = false /\ e = KeyError k0).
      { clear - G. unfold dict_contains.
        induction reloaded as [|[k' w] d IHd]; cbn [dict_get] in G.
        - inversion G. split; reflexivity.
        - cbn [keys map fst mem_str existsb].
          destruct (String.eqb k0 k'); [discriminate|]. cbn [orb].
          now apply IHd. }
      exists k0. split; [now left | exact Hk].
Qed.

Lemma compare_loop_all_equal (tensors reloaded : odict T) :
  (forall k v, In (k, v) tensors ->
               exists v', dict_get k reloaded = Ok v'
                          /\ torch_equal v v' = true) ->
  compare_loop tensors reloaded = Ok tt.
Proof.
  induction tensors as [|[k0 v0] r IH]; intros Hall; cbn [compare_loop].
  - reflexivity.
  - destruct (Hall k0 v0 (or_introl eq_refl)) as (v' & G & Eq).
    rewrite G. cbn [rbind]. rewrite Eq.
    apply IH. intros k v Hin. apply Hall. now right.
Qed.

(** ** The entry point *)

(** C7 (what the code does).  When [--dest_directory] is absent from the
    command line, [main] raises [AttributeError] on [None.strip()] before
    it derives a destination or touches the file system. *)
Theorem main_without_destination (src : option string) (s : State W T) :
  main (MkNamespace src None) s = (Raise (AttributeError "strip"), s).
Proof.
  unfold main, bind, lift. cbn [src_directory dest_directory strip_attr].
  destruct src; reflexivity.
Qed.

(** With an empty [--dest_directory] the destination is derived from the
    source directory. *)
Lemma main_empty_destination (src : string) (s : State W T)
  (entries : list string) :
  os_listdir (py_strip src) (world s) = Ok entries ->
  In "pytorch_model.bin" entries ->
  main (MkNamespace (Some src) (Some "")) s
  = convert_file
      (posix_join (py_strip src) "pytorch_model.bin")
      (posix_join
         (posix_join (py_strip src)
            (posix_basename (posix_normpath (py_strip src)) ++ "_safetensors")%string)
         "model.safetensors")
      true (log s [EvListdir (py_strip src)]).
Proof.
  intros Hls Hin. unfold main, bind, lift, reading.
  cbn [src_directory dest_directory strip_attr world trace].
  rewrite Hls. apply mem_str_In in Hin. rewrite Hin. reflexivity.
Qed.

(** C8 (what the code does).  With both options given, [main] lists the
    source directory and looks for an entry named exactly
    [pytorch_model.bin].  When there is none it raises the [RuntimeError]
    "pytorch_model.bin file not found. Please ensure the correct source
    directory is specified." with the world unchanged: the only call
    made is the listing, no directory or file has been created and no
    conversion step has run (the same holds when the listing itself
    fails).  When the entry is present [main] goes on with [convert_file]
    on [src/pytorch_model.bin] and [dest/model.safetensors].  With an
    option absent from the command line [main] never gets that far: it
    raises [AttributeError] before it lists the directory, whether or not
    the file is there, so neither the descriptive error nor the
    conversion happens. *)
Theorem main_requires_legacy_file (src : string) (s : State W T) :
  (forall dest entries,
     os_listdir (py_strip src) (world s) = Ok entries ->
     ~ In "pytorch_model.bin" entries ->
     main (MkNamespace (Some src) (Some dest)) s
     = (Raise (RuntimeError
          "pytorch_model.bin file not found. Please ensure the correct source directory is specified."),
        log s [EvListdir (py_strip src)]))
  /\
  (forall dest entries,
     os_listdir (py_strip src) (world s) = Ok entries ->
     In "pytorch_model.bin" entries ->
     main (MkNamespace (Some src) (Some dest)) s
     = convert_file
         (posix_join (py_strip src) "pytorch_model.bin")
         (posix_join (resolved_destination src dest) "model.safetensors")
         true (log s [EvListdir (py_strip src)]))
  /\
  (forall dest e,
     os_listdir (py_strip src) (world s) = Raise e ->
     main (MkNamespace (Some src) (Some dest)) s
     = (Raise e, log s [EvListdir (py_strip src)]))
  /\
  (forall args,
     src_directory args = None \/ dest_directory args = None ->
     main args s = (Raise (AttributeError "strip"), s)).
Proof.
  unfold main, bind, lift, reading, raise, resolved_destination.
  split; [|split; [|split]].
  - intros dest entries Hls Hin.
    cbn [src_directory dest_directory strip_attr world trace].
    rewrite Hls. apply mem_str_false in Hin. rewrite Hin. reflexivity.
  - intros dest entries Hls Hin.
    cbn [src_directory dest_directory strip_attr world trace].
    rewrite Hls. apply mem_str_In in Hin. rewrite Hin. reflexivity.
  - intros dest e Hls.
    cbn [src_directory dest_directory strip_attr world trace].
    rewrite Hls. reflexivity.
  - intros [[src'|] [dest'|]] [E|E]; cbn [src_directory dest_directory] in E;
      try discriminate; reflexivity.
Qed.

End ScriptFacts.

(** ** The Precision Normalizer *)

Section NormalizerFacts.
Context {W T : Type} `{TorchContract T} `{Runtime W T}.

Lemma normalize_tensors (ts : odict T) :
  normalize (tensor_dict ts)
  = Ok (map (fun kt => (fst kt, half (contiguous (snd kt)))) ts).
Proof.
  induction ts as [|[k t] ts IH]; cbn [tensor_dict map normalize fst snd].
  - reflexivity.
  - fold (tensor_dict ts). rewrite IH. reflexivity.
Qed.

Lemma normalize_contract (items : odict (PyVal T)) (tensors : odict T) :
  normalize items = Ok tensors ->
  Forall (fun kt => is_half (snd kt) /\ is_contiguous (snd kt)) tensors.
Proof.
  revert tensors. induction items as [|[k v] r IH]; intros tensors.
  - cbn. intros E. inversion E. constructor.
  - cbn [normalize]. destruct v as [t| |]; try discriminate.
    destruct (normalize r) as [r'|e]; [|discriminate].
    cbn [rbind]. intros E. inversion E; subst. constructor.
    + cbn [snd]. split; [apply half_dtype | apply half_layout, contiguous_layout].
    + now apply IH.
Qed.

Lemma payload_contract (obj : odict (PyVal T)) (tensors : odict T) :
  payload obj = Ok tensors ->
  Forall (fun kt => is_half (snd kt) /\ is_contiguous (snd kt)) tensors.
Proof.
  unfold payload. destruct (unwrap_state_dict obj) as [loaded|e]; [|discriminate].
  cbn [rbind]. destruct (resolve_aliases loaded) as [items|e]; [|discriminate].
  cbn [rbind]. apply normalize_contract.
Qed.

(** C5.  The Precision Normalizer maps every retained tensor [t] to
    [t.contiguous().half()], whatever its dtype, and raises nothing on a
    dictionary of tensors.  Under the library contract of [contiguous]
    and [half], every tensor of a map that [convert_file] passes to
    [save_file] is float16 and contiguous. *)
Theorem normalizer_half_contiguous (pt_filename sf_filename : string)
  (c : bool) (s : State W T) :
  (forall ts : odict T,
     normalize (tensor_dict ts)
     = Ok (map (fun kt => (fst kt, half (contiguous (snd kt)))) ts))
  /\
  (forall (tr : list (Event T)) (tensors : odict T) (path : string),
     trace (snd (convert_file pt_filename sf_filename c s)) = trace s ++ tr ->
     In (EvSaveFile tensors path) tr ->
     Forall (fun kt => is_half (snd kt) /\ is_contiguous (snd kt)) tensors).
Proof.
  split; [apply normalize_tensors|].
  intros tr tensors path Etr Hin.
  destruct (saved_map_is_payload pt_filename sf_filename c s tr tensors path
              Etr Hin) as (obj & _ & Hpay).
  exact (payload_contract _ _ Hpay).
Qed.

End NormalizerFacts.

(** ** The round-trip check *)

Lemma string_app_inj_l (p a b : string) :
  (p ++ a)%string = (p ++ b)%string -> a = b.
Proof.
  induction p as [|c p IH]; cbn [String.append]; intros E.
  - exact E.
  - inversion E. auto.
Qed.

Lemma string_app_inj_r (a b : string) (c : ascii) :
  (a ++ String c EmptyString)%string = (b ++ String c EmptyString)%string ->
  a = b.
Proof.
  revert b. induction a as [|x a IH]; intros [|y b]; cbn [String.append];
    intros E.
  - reflexivity.
  - inversion E as [[Ec Er]]. destruct b; discriminate.
  - inversion E as [[Ec Er]]. destruct a; discriminate.
  - inversion E as [[Ec Er]]. f_equal. now apply IH.
Qed.

(** The message of the round-trip check determines the tensor name. *)
Lemma mismatch_message_inj (k k' : string) :
  mismatch_message k = mismatch_message k' -> k = k'.
Proof.
  unfold mismatch_message. intros E.
  apply string_app_inj_l in E. now apply string_app_inj_r in E.
Qed.

Lemma dict_get_present {V} (k : string) (d : odict V) (v : V) :
  dict_get k d = Ok v -> dict_contains k d = true.
Proof.
  unfold dict_contains. induction d as [|[k' w] d IH]; cbn [dict_get].
  - discriminate.
  - cbn [keys map fst mem_str existsb]. destruct (String.eqb k k'); auto.
Qed.

Lemma fp16_eqb_refl (x : Z) : fp16_eqb x x = negb (fp16_nan x).
Proof.
  unfold fp16_eqb. rewrite Z.eqb_refl. destruct (fp16_nan x); reflexivity.
Qed.

(** A list of elements equals itself exactly when it holds no NaN. *)
Lemma bits_equal_refl (l : list Z) :
  bits_equal l l = negb (existsb fp16_nan l).
Proof.
  induction l as [|x l IH]; cbn [bits_equal existsb].
  - reflexivity.
  - now rewrite fp16_eqb_refl, IH, Bool.negb_orb.
Qed.

Lemma shape_eqb_refl (l : list Z) : shape_eqb l l = true.
Proof.
  induction l as [|x l IH]; cbn [shape_eqb]; [reflexivity|].
  now rewrite Z.eqb_refl, IH.
Qed.

Section RoundTripFacts.
Context {W T : Type} `{EqualContract T} `{Runtime W T}.

(** [torch.equal] of a tensor and a bit-identical copy. *)
Lemma torch_equal_copy (v v' : T) :
  tensor_shape v' = tensor_shape v -> tensor_bits v' = tensor_bits v ->
  torch_equal v v' = negb (has_nan v).
Proof.
  intros Es Eb. rewrite torch_equal_elementwise, Es, Eb.
  now rewrite shape_eqb_refl, bits_equal_refl.
Qed.

(** C6 (amended).  The round-trip check reloads the container just
    written and compares, for every retained name, the reloaded tensor
    with the normalized tensor that was written, with [torch.equal]: no
    tolerance, but equality of the elements as numbers, not of their
    bits.  It returns normally exactly when every retained tensor
    compares equal to its reloaded copy.  When it raises, the error is
    the [RuntimeError] "Mismatch in tensors for key k." for a name [k]
    whose tensors compare different (the message determines [k]), or the
    [KeyError] of a retained name missing from the reloaded container;
    when the reloaded container holds every retained name, any mismatch
    makes the check raise the [RuntimeError] naming the first
    mismatching tensor.  A reload that is bit for bit what was written
    passes exactly when no retained tensor holds a NaN; otherwise the
    check raises the mismatch error for a tensor that holds one.  A run
    of [convert_file] that completes has found every written tensor
    equal to its reloaded copy. *)
Theorem roundtrip_check_exact (sf_filename : string) :
  (forall (tensors reloaded : odict T) (s : State W T),
     load_file sf_filename (world s) = Ok reloaded ->
     (fst (roundtrip_check tensors sf_filename s) = Ok tt
      <-> forall k v, In (k, v) tensors ->
                      exists v', dict_get k reloaded = Ok v'
                                 /\ torch_equal v v' = true)
     /\ (forall e,
          fst (roundtrip_check tensors sf_filename s) = Raise e ->
          (exists k v v',
             In (k, v) tensors /\ dict_get k reloaded = Ok v'
             /\ torch_equal v v' = false
             /\ e = RuntimeError
                      ("Mismatch in tensors for key " ++ k ++ ".")%string)
          \/ (exists k,
                In k (keys tensors) /\ dict_contains k reloaded = false
                /\ e = KeyError k))
     /\ (incl (keys tensors) (keys reloaded) ->
         forall k v v',
           In (k, v) tensors -> dict_get k reloaded = Ok v' ->
           torch_equal v v' = false ->
           exists k0 v0 v0',
             In (k0, v0) tensors /\ dict_get k0 reloaded = Ok v0'
             /\ torch_equal v0 v0' = false
             /\ first_mismatch tensors reloaded = Some k0
             /\ fst (roundtrip_check tensors sf_filename s)
                = Raise (RuntimeError
                           ("Mismatch in tensors for key " ++ k0 ++ ".")%string))
     /\ (bit_identical tensors reloaded ->
         (fst (roundtrip_check tensors sf_filename s) = Ok tt
          <-> forall k v, In (k, v) tensors -> has_nan v = false)
         /\ (forall e,
               fst (roundtrip_check tensors sf_filename s) = Raise e ->
               exists k v,
                 In (k, v) tensors /\ has_nan v = true
                 /\ e = RuntimeError
                          ("Mismatch in tensors for key " ++ k ++ ".")%string)))
  /\
  (forall (pt_filename : string) (c : bool) (s : State W T),
     fst (convert_file pt_filename sf_filename c s) = Ok tt ->
     exists (obj : odict (PyVal T)) (written reloaded : odict T),
       torch_load pt_filename (world s) = Ok obj
       /\ payload obj = Ok written
       /\ load_file sf_filename
                    (world (snd (convert_file pt_filename sf_filename c s)))
          = Ok reloaded
       /\ forall k v, In (k, v) written ->
                      exists v', dict_get k reloaded = Ok v'
                                 /\ torch_equal v v' = true)
  /\
  (forall k k' : string,
     ("Mismatch in tensors for key " ++ k ++ ".")%string
     = mismatch_message k'
     -> k = k').
Proof.
  split; [|split].
  - intros tensors reloaded s Hload.
    assert (Hrun : fst (roundtrip_check tensors sf_filename s)
                   = compare_loop tensors reloaded).
    { unfold roundtrip_check, bind, reading, lift. cbn [world].
      rewrite Hload. reflexivity. }
    rewrite Hrun. split; [|split; [|split]].
    + split; [apply compare_loop_ok | apply compare_loop_all_equal].
    + intros e He. now apply compare_loop_raises.
    + intros Hin k v v' Hkv Hget Hne.
      rewrite (compare_loop_first_mismatch _ _ Hin).
      destruct (first_mismatch tensors reloaded) as [k0|] eqn:Fm.
      * destruct (first_mismatch_some _ _ _ Fm) as (v0 & v0' & M1 & M2 & M3).
        exists k0, v0, v0'. repeat split; auto.
      * exfalso.
        assert (Hok : compare_loop tensors reloaded = Ok tt)
          by (rewrite (compare_loop_first_mismatch _ _ Hin), Fm; reflexivity).
        destruct (compare_loop_ok _ _ Hok k v Hkv) as (w & Hw & Ew).
        congruence.
    + intros Hbits. split.
      * split.
        -- intros Hok k v Hkv.
           destruct (compare_loop_ok _ _ Hok k v Hkv) as (v' & Hget & Heq).
           destruct (Hbits k v Hkv) as (v'' & Hget' & Es & Eb).
           rewrite Hget in Hget'. inversion Hget'; subst v''.
           rewrite (torch_equal_copy v v' Es Eb) in Heq.
           now apply Bool.negb_true_iff in Heq.
        -- intros Hfree. apply compare_loop_all_equal. intros k v Hkv.
           destruct (Hbits k v Hkv) as (v' & Hget & Es & Eb).
           exists v'. split; [exact Hget|].
           rewrite (torch_equal_copy v v' Es Eb), (Hfree k v Hkv).
           reflexivity.
      * intros e He.
        destruct (compare_loop_raises _ _ _ He)
          as [(k & v & v' & Hkv & Hget & Hne & ->)|(k & Hk & Hmiss & _)].
        -- exists k, v. split; [exact Hkv|].
           destruct (Hbits k v Hkv) as (v'' & Hget' & Es & Eb).
           rewrite Hget in Hget'. inversion Hget'; subst v''.
           rewrite (torch_equal_copy v v' Es Eb) in Hne.
           apply Bool.negb_false_iff in Hne. split; [exact Hne | reflexivity].
        -- exfalso. unfold keys in Hk. apply in_map_iff in Hk.
           destruct Hk as ([k' v] & E & Hkv). cbn [fst] in E. subst k'.
           destruct (Hbits k v Hkv) as (v' & Hget & _).
           apply dict_get_present in Hget. congruence.
  - intros pt_filename c s. rewrite convert_file_run.
    destruct (torch_load pt_filename (world s)) as [obj|e] eqn:Hload;
      [|discriminate].
    destruct (payload obj) as [tensors|e] eqn:Hpay; [|discriminate].
    destruct (deliver tensors pt_filename sf_filename c
                (log s [EvTorchLoad pt_filename])) as [r s'] eqn:Hrun.
    cbn [fst snd]. intros ->.
    destruct (deliver_ok_roundtrip _ _ _ _ _ _ Hrun) as (reloaded & Hl & Hc).
    exists obj, tensors, reloaded.
    split; [reflexivity|]. split; [exact Hpay|]. split; [exact Hl|].
    now apply compare_loop_ok.
  - intros k k' E. now apply mismatch_message_inj.
Qed.

End RoundTripFacts.

(** ** Runs on concrete inputs *)

Section ConcreteRuns.
Import Toy.

(** The scenario of the specification: [w2] aliases [w1]; the container
    holds [w1] alone, in float16, and [config.json] is copied. *)
Example tied_weights_scenario :
  fst (main both_options (start (model_dir tied_checkpoint 50))) = Ok tt
  /\ find "/out/model.safetensors"
          (world (snd (main both_options (start (model_dir tied_checkpoint 50)))))
     = Some (Container [("w1", MkTensor 4096 Float16 true [Num 1; Num 2; Num 3; Num 4])]
                       [("format", "pt")])
  /\ find "/out/config.json"
          (world (snd (main both_options (start (model_dir tied_checkpoint 50)))))
     = Some (Plain 20).
Proof. vm_compute. repeat split. Qed.

(** An empty [--dest_directory] resolves to [/data/foo/foo_safetensors]. *)
Example empty_destination_scenario :
  resolved_destination "/data/foo" "" = "/data/foo/foo_safetensors"
  /\ fst (main (MkNamespace (Some "/data/foo") (Some ""))
               (start (model_dir tied_checkpoint 50))) = Ok tt.
Proof. vm_compute. split; reflexivity. Qed.

(** *** C1 *)

Lemma size_drift_bounds_growth_witness :
  fst (convert_file pt_path sf_path true (start (model_dir tied_checkpoint 50)))
  = Ok tt
  /\ (exists (obj : odict (PyVal Tensor)) (tensors : odict Tensor)
             (sf_size pt_size : N),
        torch_load pt_path (model_dir tied_checkpoint 50) = Ok obj
        /\ payload obj = Ok tensors
        /\ os_stat_size sf_path
             (written_world tensors sf_path (model_dir tied_checkpoint 50))
           = Ok sf_size
        /\ os_stat_size pt_path
             (written_world tensors sf_path (model_dir tied_checkpoint 50))
           = Ok pt_size
        /\ pt_size <> 0%N
        /\ dy_ltb float_0_01
                  (binary64_of_ratio (Z.of_N sf_size - Z.of_N pt_size)
                                     (Z.of_N pt_size)) = false
        /\ ((pt_size < 2 ^ 53)%N -> growth_ok sf_size pt_size))
  /\ fst (check_file_size sf_path pt_path (start (sizes_world 102 100)))
     = Raise (RuntimeError (size_message sf_path 102 pt_path 100)).
Proof.
  split; [vm_compute; reflexivity|]. split.
  - apply (proj1 (size_drift_bounds_growth pt_path sf_path true
                    (start (model_dir tied_checkpoint 50)))).
    vm_compute. reflexivity.
  - apply (proj2 (size_drift_bounds_growth pt_path sf_path true
                    (start (model_dir tied_checkpoint 50)))
                 (start (sizes_world 102 100)) 102%N 100%N).
    + reflexivity.
    + reflexivity.
    + vm_compute. split; reflexivity.
    + unfold growth_ok. vm_compute. intros Hle. apply Hle. reflexivity.
Defined.

(** A float32 checkpoint of 1000 bytes becomes a container of 48 bytes:
    the run completes although the absolute difference is 95.2%. *)
Lemma size_bound_absolute_counterexample :
  fst (convert tied_checkpoint 1000) = Ok tt
  /\ os_stat_size sf_path (world (snd (convert tied_checkpoint 1000))) = Ok 48%N
  /\ os_stat_size pt_path (world (snd (convert tied_checkpoint 1000)))
     = Ok 1000%N
  /\ ~ abs_drift_ok 48 1000
  /\ fst (check_file_size sf_path pt_path (snd (convert tied_checkpoint 1000)))
     = Ok tt.
Proof.
  split; [vm_compute; reflexivity|]. split; [vm_compute; reflexivity|].
  split; [vm_compute; reflexivity|]. split; [|vm_compute; reflexivity].
  unfold abs_drift_ok. vm_compute. intros Hle. apply Hle. reflexivity.
Qed.

(** *** C2 *)

Lemma convert_file_stage_order_witness :
  fst (convert_file pt_path sf_path true (start (model_dir tied_checkpoint 50)))
  = Ok tt
  /\ exists tensors copies,
       trace (snd (convert_file pt_path sf_path true
                     (start (model_dir tied_checkpoint 50))))
       = stages pt_path sf_path tensors copies
       /\ Forall copy_event copies.
Proof.
  split; [vm_compute; reflexivity|].
  destruct (convert_file_stage_order pt_path sf_path true
              (start (model_dir tied_checkpoint 50)))
    as (tensors & copies & tr & E & F & _ & Q & _).
  exists tensors, copies. split; [|exact F].
  rewrite E. cbn [start trace app]. apply Q. vm_compute. reflexivity.
Defined.

(** In a complete run [config.json] is copied before the container is
    reloaded; with a NaN weight the round-trip check then fails although
    the sidecar file is already in the destination. *)
Lemma sidecar_copied_before_roundtrip :
  ~ checks_before_copies (trace (snd (convert tied_checkpoint 50)))
  /\ fst (convert nan_checkpoint 50)
     = Raise (RuntimeError "Mismatch in tensors for key w.")
  /\ find "/out/config.json" (world (snd (convert nan_checkpoint 50)))
     = Some (Plain 20).
Proof.
  split; [|split; vm_compute; reflexivity].
  intros Hc.
  destruct (Hc [EvTorchLoad pt_path; EvMakedirs "/out";
                EvSaveFile [("w1", MkTensor 4096 Float16 true
                                     [Num 1; Num 2; Num 3; Num 4])] sf_path;
                EvStat sf_path; EvStat pt_path; EvListdir "/data/foo";
                EvIsFile pt_path; EvIsFile "/data/foo/config.json"]
               [EvLoadFile sf_path] "/data/foo/config.json" "/out")
    as (path & Hin).
  - vm_compute. reflexivity.
  - cbn [In] in Hin.
    repeat (destruct Hin as [Hin|Hin]; [discriminate|]). exact Hin.
Qed.

(** *** C9 *)

Lemma alias_resolution_idempotent_witness :
  wf_dict three_views
  /\ resolve_aliases
       (VDict (tensor_dict (keep_first_per_buffer [] three_views)))
     = Ok (tensor_dict (keep_first_per_buffer [] three_views)).
Proof.
  split.
  - apply wf_dictb_sound. vm_compute. reflexivity.
  - apply (alias_resolution_idempotent three_views).
    apply wf_dictb_sound. vm_compute. reflexivity.
Defined.

(** *** C5 *)

Lemma normalizer_half_contiguous_witness :
  trace (snd (convert_file pt_path sf_path true
                (start (model_dir tied_checkpoint 50))))
  = trace (start (model_dir tied_checkpoint 50))
    ++ stages pt_path sf_path
         [("w1", MkTensor 4096 Float16 true [Num 1; Num 2; Num 3; Num 4])]
         [EvListdir "/data/foo"; EvIsFile pt_path;
          EvIsFile "/data/foo/config.json";
          EvCopy "/data/foo/config.json" "/out"]
  /\ Forall (fun kt => is_half (snd kt) /\ is_contiguous (snd kt))
            [("w1", MkTensor 4096 Float16 true [Num 1; Num 2; Num 3; Num 4])].
Proof.
  split; [vm_compute; reflexivity|].
  apply (proj2 (normalizer_half_contiguous pt_path sf_path true
                  (start (model_dir tied_checkpoint 50)))
               (stages pt_path sf_path
                  [("w1", MkTensor 4096 Float16 true [Num 1; Num 2; Num 3; Num 4])]
                  [EvListdir "/data/foo"; EvIsFile pt_path;
                   EvIsFile "/data/foo/config.json";
                   EvCopy "/data/foo/config.json" "/out"])
               _ sf_path).
  - vm_compute. reflexivity.
  - right. right. left. reflexivity.
Defined.

(** *** C7 *)

(** [--src_directory /data/foo] alone: the run stops on [None.strip()]
    and nothing is written. *)
Example missing_destination_scenario :
  main (MkNamespace (Some "/data/foo") None)
       (start (model_dir tied_checkpoint 50))
  = (Raise (AttributeError "strip"), start (model_dir tied_checkpoint 50)).
Proof. reflexivity. Qed.

(** *** C8 *)

(** [--src_directory /data/foo --dest_directory /out] on a directory
    without the legacy file, and [--src_directory /data/foo] alone on a
    directory that holds it. *)
Lemma main_requires_legacy_file_witness :
  os_listdir (py_strip "/data/foo") (world (start config_only))
  = Ok ["config.json"]
  /\ ~ In "pytorch_model.bin" ["config.json"]
  /\ main both_options (start config_only)
     = (Raise (RuntimeError not_found_message),
        log (start config_only) [EvListdir (py_strip "/data/foo")])
  /\ main (MkNamespace (Some "/data/foo") None)
          (start (model_dir tied_checkpoint 50))
     = (Raise (AttributeError "strip"), start (model_dir tied_checkpoint 50)).
Proof.
  split; [vm_compute; reflexivity|].
  assert (Hno : ~ In "pytorch_model.bin" ["config.json"])
    by (intros [E|[]]; discriminate).
  split; [exact Hno|]. split.
  - pose proof (main_requires_legacy_file "/data/foo" (start config_only))
      as P.
    apply (proj1 P) with (dest := "/out") (entries := ["config.json"]).
    + vm_compute. reflexivity.
    + exact Hno.
  - pose proof (main_requires_legacy_file "/data/foo"
                  (start (model_dir tied_checkpoint 50))) as P.
    apply (proj2 (proj2 (proj2 P))). right. reflexivity.
Defined.

(** *** C10 *)

Lemma check_file_size_zero_division_witness :
  os_stat_size sf_path (world (start (sizes_world 48 0))) = Ok 48%N
  /\ os_stat_size pt_path (world (start (sizes_world 48 0))) = Ok 0%N
  /\ fst (check_file_size sf_path pt_path (start (sizes_world 48 0)))
     = Raise ZeroDivisionError.
Proof.
  split; [reflexivity|]. split; [reflexivity|].
  pose proof (check_file_size_zero_division sf_path pt_path
                (start (sizes_world 48 0)) 48%N 0%N) as P.
  apply P; reflexivity.
Defined.

End ConcreteRuns.

(** ** Runs on views of shared storage *)

Section StorageRuns.
Import Strided.

(** *** C3 *)



(** *** C4 *)



(** *** C6 *)

Lemma roundtrip_check_exact_witness :
  load_file sf_path (world (start (holding [("w", whole)])))
  = Ok [("w", MkView (MkStorage 1048576 [15360; 16384; 16896; 17408]) 0 4)]
  /\ bit_identical
       [("w", whole)]
       [("w", MkView (MkStorage 1048576 [15360; 16384; 16896; 17408]) 0 4)]
  /\ (fst (roundtrip_check [("w", whole)] sf_path
             (start (holding [("w", whole)]))) = Ok tt
      <-> forall k v, In (k, v) [("w", whole)] -> has_nan v = false).
Proof.
  assert (Hb : bit_identical
                 [("w", whole)]
                 [("w", MkView (MkStorage 1048576 [15360; 16384; 16896; 17408])
                               0 4)]).
  { intros k v [E|[]]. inversion E; subst.
    eexists. split; [reflexivity|]. split; reflexivity. }
  split; [vm_compute; reflexivity|]. split; [exact Hb|].
  pose proof (proj1 (roundtrip_check_exact sf_path)
                [("w", whole)]
                [("w", MkView (MkStorage 1048576 [15360; 16384; 16896; 17408])
                              0 4)]
                (start (holding [("w", whole)]))) as P.
  apply P.
  - vm_compute. reflexivity.
  - exact Hb.
Defined.

(** A float16 checkpoint whose weight holds a NaN: the container is
    written and reloads bit for bit, and the check raises. *)
Lemma bit_identical_reload_with_nan_fails :
  fst (convert_file pt_path sf_path true (start (model_dir nan_checkpoint 50)))
  = Raise (RuntimeError "Mismatch in tensors for key w.")
  /\ load_file sf_path
       (world (snd (convert_file pt_path sf_path true
                      (start (model_dir nan_checkpoint 50)))))
     = Ok [("w", MkView (MkStorage 1048576 [15360; 32256]) 0 2)]
  /\ bit_identical [("w", nan_weight)]
                   [("w", MkView (MkStorage 1048576 [15360; 32256]) 0 2)]
  /\ ~ bitwise_roundtrip_passes
         [("w", nan_weight)]
         [("w", MkView (MkStorage 1048576 [15360; 32256]) 0 2)]
         (fst (roundtrip_check [("w", nan_weight)] sf_path
                 (snd (convert_file pt_path sf_path true
                         (start (model_dir nan_checkpoint 50)))))).
Proof.
  assert (Hb : bit_identical
                 [("w", nan_weight)]
                 [("w", MkView (MkStorage 1048576 [15360; 32256]) 0 2)]).
  { intros k v [E|[]]. inversion E; subst.
    eexists. split; [reflexivity|]. split; reflexivity. }
  split; [vm_compute; reflexivity|]. split; [vm_compute; reflexivity|].
  split; [exact Hb|].
  intros Hpass. specialize (Hpass Hb). vm_compute in Hpass. discriminate.
Qed.

End StorageRuns.

(** * Further properties *)

(** ** Grouping and resolution *)

Section MoreAliasFacts.
Context {T : Type} `{TorchTensor T}.


(** X2.  Without aliasing the resolver changes nothing: when the tensors have
    pairwise distinct data pointers the dictionary comes back as it
    was. *)
Theorem resolve_aliases_without_sharing (ts : odict T) :
  NoDup (ptrs ts) ->
  resolve_aliases (VDict (tensor_dict ts)) = Ok (tensor_dict ts).
Proof.
  intros Hnd. unfold resolve_aliases.
  rewrite get_shared_weights_tensors, (no_shared_weights ts Hnd).
  reflexivity.
Qed.

Lemma group_loop_non_tensor (items : odict (PyVal T)) :
  existsb (fun kv => negb (is_tensor (snd kv))) items = true ->
  forall tmp, group_loop items tmp = Raise (AttributeError "data_ptr").
Proof.
  induction items as [|[k v] r IH]; cbn [existsb group_loop snd]; intros Hex tmp.
  - discriminate.
  - destruct v as [t| |]; cbn [is_tensor negb orb] in Hex; try reflexivity.
    now apply IH.
Qed.

(** X3.  [normalize] keeps the names and their order, and it succeeds exactly
    on the dictionaries whose values are all tensors. *)
Theorem normalize_keys (items : odict (PyVal T)) :
  (forall tensors, normalize items = Ok tensors -> keys tensors = keys items)
  /\ ((exists tensors, normalize items = Ok tensors)
      <-> forallb (fun kv => is_tensor (snd kv)) items = true).
Proof.
  split.
  - induction items as [|[k v] r IH]; cbn [normalize]; intros tensors E.
    + inversion E. reflexivity.
    + destruct v as [t| |]; try discriminate.
      destruct (normalize r) as [r'|e]; [|discriminate].
      cbn [rbind] in E. inversion E; subst. cbn [keys map fst].
      f_equal. now apply IH.
  - induction items as [|[k v] r IH]; cbn [normalize forallb snd].
    + split; [reflexivity | intros _; eexists; reflexivity].
    + destruct v as [t| |]; cbn [is_tensor andb].
      * rewrite <- IH. split.
        -- intros (tensors & E). destruct (normalize r) as [r'|e];
             [eexists; reflexivity | discriminate].
        -- intros (r' & ->). eexists. reflexivity.
      * split; [intros (? & E); discriminate | discriminate].
      * split; [intros (? & E); discriminate | discriminate].
Qed.

End MoreAliasFacts.

(** ** The payload *)

Section MorePayloadFacts.
Context {T : Type} `{TorchTensor T}.

Lemma dict_get_contains {V} (k : string) (d : odict V) (v : V) :
  dict_get k d = Ok v -> dict_contains k d = true.
Proof.
  unfold dict_contains. induction d as [|[k' w] r IH]; cbn [dict_get].
  - discriminate.
  - cbn [keys map fst mem_str existsb].
    destruct (String.eqb k k'); [reflexivity|]. exact IH.
Qed.

(** X4.  A ["state_dict"] entry is unwrapped once: a checkpoint that wraps a
    dictionary [d] under ["state_dict"] gives the payload of [d] itself,
    whatever else it holds; when the value under ["state_dict"] is not a
    dictionary (a parameter of that name, say) the conversion stops with
    [AttributeError] on [.items()]. *)
Theorem state_dict_unwrapped_once (obj : odict (PyVal T)) :
  (forall d,
     dict_get "state_dict" obj = Ok (VDict d) ->
     dict_contains "state_dict" d = false ->
     payload obj = payload d)
  /\
  (forall v,
     dict_get "state_dict" obj = Ok v ->
     is_dict v = false ->
     payload obj = Raise (AttributeError "items")).
Proof.
  split.
  - intros d Hget Hd. unfold payload, unwrap_state_dict.
    rewrite (dict_get_contains _ _ _ Hget), Hget, Hd. reflexivity.
  - intros v Hget Hv. unfold payload, unwrap_state_dict.
    rewrite (dict_get_contains _ _ _ Hget), Hget. cbn [rbind].
    destruct v as [t|d|]; [reflexivity | discriminate | reflexivity].
Qed.

(** X5.  The pure part of the conversion in closed form: a flat dictionary of
    tensors with no ["state_dict"] name yields, in order, the first entry
    of every buffer, each as [t.contiguous().half()]. *)
Theorem payload_of_tensors (ts : odict T) :
  wf_dict ts ->
  ~ In "state_dict" (keys ts) ->
  payload (tensor_dict ts)
  = Ok (map (fun kt => (fst kt, half (contiguous (snd kt))))
            (keep_first_per_buffer [] ts)).
Proof.
  intros Hwf Hno. unfold payload, unwrap_state_dict, dict_contains.
  rewrite keys_tensor_dict. apply mem_str_false in Hno. rewrite Hno.
  cbn [rbind]. rewrite (resolve_aliases_refines ts Hwf). cbn [rbind].
  apply normalize_tensors.
Qed.

End MorePayloadFacts.

(** ** Runs that stop early, and the Sidecar Copier *)

Section MoreScriptFacts.
Context {W T : Type} `{TorchTensor T} `{Runtime W T}.

(** X6.  A checkpoint that holds anything but tensors (an epoch counter, a
    nested dictionary) cannot be converted: [get_shared_weights] raises
    [AttributeError] on [data_ptr] and [convert_file] stops right after
    loading, with nothing created or written. *)
Theorem non_tensor_entry_stops_conversion
  (pt_filename sf_filename : string) (c : bool) (s : State W T)
  (obj : odict (PyVal T)) :
  torch_load pt_filename (world s) = Ok obj ->
  dict_contains "state_dict" obj = false ->
  existsb (fun kv => negb (is_tensor (snd kv))) obj = true ->
  convert_file pt_filename sf_filename c s
  = (Raise (AttributeError "data_ptr"), log s [EvTorchLoad pt_filename]).
Proof.
  intros Hload Hno Hex. rewrite convert_file_run, Hload.
  unfold payload, unwrap_state_dict. rewrite Hno. cbn [rbind].
  unfold resolve_aliases, get_shared_weights. cbn [items_of rbind].
  rewrite (group_loop_non_tensor obj Hex []). reflexivity.
Qed.

(** X7.  When the size-drift check fails, [convert_file] stops there: the
    error is raised before the source directory is listed or any sidecar
    file copied, and the container just written stays in place. *)
Theorem size_drift_failure_keeps_container
  (pt_filename sf_filename : string) (c : bool) (s : State W T)
  (obj : odict (PyVal T)) (tensors : odict T) (sf_size pt_size : N) :
  torch_load pt_filename (world s) = Ok obj ->
  payload obj = Ok tensors ->
  fst (os_makedirs (posix_dirname sf_filename) (world s)) = Ok tt ->
  fst (save_file tensors sf_filename [("format", "pt")]
         (snd (os_makedirs (posix_dirname sf_filename) (world s)))) = Ok tt ->
  os_stat_size sf_filename (written_world tensors sf_filename (world s))
  = Ok sf_size ->
  os_stat_size pt_filename (written_world tensors sf_filename (world s))
  = Ok pt_size ->
  (0 < pt_size < 2 ^ 53)%N ->
  ~ growth_ok sf_size pt_size ->
  convert_file pt_filename sf_filename c s
  = (Raise (RuntimeError
              (size_message sf_filename sf_size pt_filename pt_size)),
     MkState (written_world tensors sf_filename (world s))
             (trace s ++ [EvTorchLoad pt_filename;
                          EvMakedirs (posix_dirname sf_filename);
                          EvSaveFile tensors sf_filename;
                          EvStat sf_filename; EvStat pt_filename])).
Proof.
  intros Hload Hpay Hmk Hsave Hsf Hpt Hrange Hgrow.
  rewrite convert_file_run, Hload, Hpay.
  unfold deliver, written_world in *. unfold bind at 1, writing.
  cbn [log world trace].
  destruct (os_makedirs (posix_dirname sf_filename) (world s)) as [r1 w1].
  cbn [fst snd] in *. subst r1. unfold bind at 1. cbn [world trace].
  destruct (save_file tensors sf_filename [("format", "pt")] w1) as [r2 w2].
  cbn [fst snd] in *. subst r2. unfold bind at 1.
  match goal with
  | |- context [check_file_size _ _ ?st] => set (s2 := st)
  end.
  pose proof (check_file_size_run sf_filename pt_filename s2 sf_size pt_size
                Hsf Hpt) as Hrun.
  pose proof (check_file_size_exact sf_filename pt_filename s2 sf_size pt_size
                Hsf Hpt Hrange) as Hres.
  destruct (check_file_size sf_filename pt_filename s2) as [r3 s3].
  cbn [fst] in Hres. inversion Hrun as [[Hr Hs]]. subst r3.
  unfold growth_ok in Hgrow.
  destruct (Z.ltb_spec (Z.of_N pt_size)
                       (100 * (Z.of_N sf_size - Z.of_N pt_size))) as [_|Hle];
    [|lia].
  rewrite <- Hr. subst s2. unfold log. cbn [world trace].
  rewrite <- !app_assoc. reflexivity.
Qed.

(** X8.  With [copy_add_data=False] the source directory is never listed and
    nothing is copied: after a run that completes the world is exactly
    the one left by [os.makedirs] and [save_file]. *)
Theorem convert_file_without_sidecars
  (pt_filename sf_filename : string) (s : State W T) :
  fst (convert_file pt_filename sf_filename false s) = Ok tt ->
  exists (obj : odict (PyVal T)) (tensors : odict T),
    torch_load pt_filename (world s) = Ok obj
    /\ payload obj = Ok tensors
    /\ snd (convert_file pt_filename sf_filename false s)
       = MkState (written_world tensors sf_filename (world s))
                 (trace s ++ stages pt_filename sf_filename tensors []).
Proof.
  rewrite convert_file_run.
  destruct (torch_load pt_filename (world s)) as [obj|e] eqn:Hload;
    [|discriminate].
  destruct (payload obj) as [tensors|e] eqn:Hpay; [|discriminate].
  destruct (deliver tensors pt_filename sf_filename false
              (log s [EvTorchLoad pt_filename])) as [r s'] eqn:Hrun.
  cbn [fst snd]. intros ->.
  exists obj, tensors. split; [reflexivity|]. split; [exact Hpay|].
  revert Hrun. unfold deliver, written_world, stages, bind, writing, ret.
  cbn [log world trace].
  destruct (os_makedirs (posix_dirname sf_filename) (world s)) as [[[]|e] w1];
    [|discriminate].
  cbn [world trace snd].
  destruct (save_file tensors sf_filename [("format", "pt")] w1) as [[[]|e] w2];
    [|discriminate].
  cbn [snd].
  match goal with
  | |- context [check_file_size _ _ ?st] => set (s2 := st)
  end.
  destruct (check_file_size sf_filename pt_filename s2) as [[[]|e] s3] eqn:Hck;
    [|discriminate].
  assert (Hfst : fst (check_file_size sf_filename pt_filename s2) = Ok tt)
    by (now rewrite Hck).
  destruct (check_file_size_ok_inv _ _ _ Hfst)
    as (sf_size & pt_size & Hsf & Hpt & _ & _).
  rewrite (check_file_size_run _ _ _ _ _ Hsf Hpt) in Hck.
  inversion Hck as [[Hr Hs]]. clear Hr Hck Hfst.
  unfold roundtrip_check, bind, reading, lift. cbn [world trace log].
  destruct (load_file sf_filename (world s2)) as [reloaded|e];
    intros E; inversion E; subst s2; cbn [world trace app];
    rewrite <- !app_assoc; reflexivity.
Qed.

Lemma copy_loop_events (files all : list string) (src dst : string)
  (s : State W T) :
  incl files all ->
  exists evs,
    trace (snd (copy_loop files src dst s)) = trace s ++ evs
    /\ Forall (copier_event all src dst) evs.
Proof.
  revert s. induction files as [|file rest IH]; intros s Hin.
  - exists []. split; [cbn; now rewrite app_nil_r | constructor].
  - assert (Hfile : In file all) by (apply Hin; now left).
    assert (Hrest : incl rest all) by (intros x Hx; apply Hin; now right).
    cbn [copy_loop]. unfold bind at 1, reading. cbn [world trace].
    set (fp := posix_join src file).
    assert (Htest : copier_event all src dst (EvIsFile (T := T) fp))
      by (exists file; split; [exact Hfile | reflexivity]).
    destruct (os_path_isfile fp (world s)) eqn:Hisf; cbn [andb].
    + destruct (negb (py_endswith file ".bin" || py_endswith file ".py"))
        eqn:Hname.
      * assert (Hcopy : copier_event all src dst (EvCopy (T := T) fp dst)).
        { split; [reflexivity|]. exists file. repeat split; auto. }
        unfold bind at 1, writing. cbn [world trace].
        destruct (shutil_copy fp dst (world s)) as [[[]|e] w'].
        -- destruct (IH (MkState w' ((trace s ++ [EvIsFile fp])
                                       ++ [EvCopy fp dst])) Hrest)
             as (evs & E & F).
           exists (EvIsFile fp :: EvCopy fp dst :: evs). split.
           ++ rewrite E. cbn [trace]. now rewrite <- !app_assoc.
           ++ constructor; [exact Htest|]. constructor; [exact Hcopy | exact F].
        -- exists [EvIsFile fp; EvCopy fp dst]. split.
           ++ cbn [snd trace]. now rewrite <- !app_assoc.
           ++ constructor; [exact Htest|]. constructor; [exact Hcopy|constructor].
      * unfold bind at 1, ret.
        destruct (IH (MkState (world s) (trace s ++ [EvIsFile fp])) Hrest)
          as (evs & E & F).
        exists (EvIsFile fp :: evs). split.
        -- rewrite E. cbn [trace]. now rewrite <- !app_assoc.
        -- constructor; [exact Htest | exact F].
    + unfold bind at 1, ret.
      destruct (IH (MkState (world s) (trace s ++ [EvIsFile fp])) Hrest)
        as (evs & E & F).
      exists (EvIsFile fp :: evs). split.
      * rewrite E. cbn [trace]. now rewrite <- !app_assoc.
      * constructor; [exact Htest | exact F].
Qed.

(** X9.  [copy_remaining_files] copies nothing but entries of the listing of
    the source folder whose name ends neither in [.bin] nor in [.py],
    each from the source folder into the destination folder; whether the
    run completes or a copy raises. *)
Theorem copier_only_copies_sidecars (src dst : string) (s : State W T)
  (files : list string) :
  os_listdir src (world s) = Ok files ->
  exists evs,
    trace (snd (copy_remaining_files src dst s)) = trace s ++ evs
    /\ Forall (copier_event files src dst) evs.
Proof.
  intros Hls. unfold copy_remaining_files, bind, reading. cbn [world trace].
  rewrite Hls.
  destruct (copy_loop_events files files src dst
              (MkState (world s) (trace s ++ [EvListdir src]))
              (incl_refl files)) as (evs & E & F).
  exists (EvListdir src :: evs). split.
  - rewrite E. cbn [trace]. now rewrite <- !app_assoc.
  - constructor; [reflexivity | exact F].
Qed.

Lemma copy_loop_nothing (files : list string) (src dst : string)
  (s : State W T) :
  forallb (fun file => negb (os_path_isfile (posix_join src file) (world s)
                             && sidecar_name file)) files = true ->
  copy_loop files src dst s
  = (Ok tt, log s (map (fun file => EvIsFile (posix_join src file)) files)).
Proof.
  revert s. induction files as [|file rest IH]; intros s Hall.
  - unfold log. cbn. rewrite app_nil_r. destruct s; reflexivity.
  - cbn [forallb] in Hall. apply andb_prop in Hall. destruct Hall as (Hf & Hr).
    apply Bool.negb_true_iff in Hf. unfold sidecar_name in Hf.
    cbn [copy_loop]. unfold bind at 1, reading. cbn [world trace].
    rewrite Hf. unfold bind at 1, ret.
    rewrite (IH (MkState (world s)
                         (trace s ++ [EvIsFile (posix_join src file)])) Hr).
    unfold log. cbn [world trace map]. now rewrite <- app_assoc.
Qed.

(** X10.  A source folder with no eligible entry (every entry is a directory,
    a [.bin] or a [.py] file; the empty folder too) makes
    [copy_remaining_files] a no-op: it returns normally and leaves the
    world as it was. *)
Theorem copier_without_sidecars (src dst : string) (s : State W T)
  (files : list string) :
  os_listdir src (world s) = Ok files ->
  forallb (fun file => negb (os_path_isfile (posix_join src file) (world s)
                             && sidecar_name file)) files = true ->
  copy_remaining_files src dst s
  = (Ok tt,
     log s (EvListdir src
              :: map (fun file => EvIsFile (posix_join src file)) files)).
Proof.
  intros Hls Hall. unfold copy_remaining_files, bind, reading.
  cbn [world trace]. rewrite Hls.
  rewrite (copy_loop_nothing files src dst
             (MkState (world s) (trace s ++ [EvListdir src])) Hall).
  unfold log. cbn [world trace]. now rewrite <- app_assoc.
Qed.

End MoreScriptFacts.

(** ** The size-drift test over every file size *)

Section MoreFloatFacts.

(** For every legacy size that fits an [off_t] the test
    [(sf - pt) / pt > 0.01] holds exactly from the rounding midpoint
    above the double [0.01] on. *)
Lemma drift_test_threshold (x y : Z) :
  0 < y < 2 ^ 63 ->
  dy_ltb float_0_01 (binary64_of_ratio x y)
  = (drift_midpoint * y <=? x * 2 ^ 60).
Proof.
  intros Hy. rewrite float_0_01_value. unfold binary64_of_ratio, drift_midpoint.
  change (2 ^ 60) with 1152921504606846976.
  change (2 ^ 63) with 9223372036854775808 in Hy.
  destruct (Z.eqb_spec x 0) as [->|Hx0].
  { vm_compute dy_ltb. symmetry. apply Z.leb_gt. lia. }
  destruct (Z.ltb_spec (Z.sgn x * Z.sgn y) 0) as [Hs|Hs].
  - assert (Hx : x < 0) by nia.
    assert (Hm : 0 <= mant (round_pos (Z.abs x) (Z.abs y))).
    { unfold round_pos. cbn [mant expo]. apply round_half_even_nonneg.
      - unfold shl.
        pose proof (pow2_gt0 (- Z.max (binade (Z.abs x) (Z.abs y) - 52) (-1074))).
        nia.
      - unfold shl.
        pose proof (pow2_gt0 (Z.max (binade (Z.abs x) (Z.abs y) - 52) (-1074))).
        nia. }
    unfold dy_ltb, shl. cbn [mant expo].
    set (m := mant (round_pos (Z.abs x) (Z.abs y))) in *.
    set (e := expo (round_pos (Z.abs x) (Z.abs y))).
    pose proof (pow2_gt0 (-59 - e)). pose proof (pow2_gt0 (e - -59)).
    transitivity false; [apply Z.ltb_ge; nia | symmetry; apply Z.leb_gt; lia].
  - assert (Hx : 0 < x) by nia.
    rewrite (Z.abs_eq x), (Z.abs_eq y) by lia.
    destruct (binade_spec x y Hx (proj1 Hy)) as (Lo & Hi).
    assert (Hk : -63 <= binade x y).
    { destruct (Z.le_gt_cases (-63) (binade x y)) as [|Hlt]; auto.
      apply (ge_pow2_false_iff x y _ 0 (- (binade x y + 1))) in Hi; try lia.
      pose proof (pow2_mono 63 (- (binade x y + 1)) ltac:(lia)) as P.
      change (2 ^ 63) with 9223372036854775808 in P.
      rewrite Z.pow_0_r in Hi. nia. }
    destruct (round_pos_normal x y Hx (proj1 Hy) ltac:(lia))
      as (m & -> & Hm & Em).
    set (k := binade x y) in *.
    unfold dy_ltb, shl. cbn [mant expo].
    change (2 ^ 53) with 9007199254740992 in Hm.
    change (2 ^ 52) with 4503599627370496 in Hm.
    destruct (Z.lt_trichotomy k (-7)) as [Hlt|[Heq|Hgt]].
    + apply (ge_pow2_false_iff x y _ 0 (- (k + 1))) in Hi; try lia.
      pose proof (pow2_mono 7 (- (k + 1)) ltac:(lia)) as P.
      rewrite Z.pow_0_r in Hi.
      replace (Z.max 0 (k - 52 - -59)) with 0 by lia.
      pose proof (pow2_mono 1 (Z.max 0 (-59 - (k - 52))) ltac:(lia)) as Q.
      rewrite Z.pow_0_r.
      change (2 ^ 7) with 128 in P. change (2 ^ 1) with 2 in Q.
      transitivity false; [apply Z.ltb_ge; nia | symmetry; apply Z.leb_gt; nia].
    + rewrite Heq in *. simpl Z.max. rewrite Z.pow_0_r, !Z.mul_1_r.
      change (shl x (52 - -7)) with (x * 2 ^ 59) in Em.
      change (shl y (-7 - 52)) with (y * 1) in Em.
      rewrite Z.mul_1_r in Em.
      assert (Hodd : Z.odd 5764607523034235 = true) by reflexivity.
      pose proof (round_half_even_gt_odd (x * 2 ^ 59) y _ (proj1 Hy) Hodd) as R.
      rewrite <- Em in R.
      change (2 ^ 59) with 576460752303423488 in R.
      destruct (Z.ltb_spec 5764607523034235 m) as [H1|H1];
        symmetry; [apply Z.leb_le | apply Z.leb_gt]; lia.
    + replace (Z.max 0 (-59 - (k - 52))) with 0 by lia.
      rewrite Z.pow_0_r, Z.mul_1_r.
      pose proof (pow2_mono 1 (Z.max 0 (k - 52 - -59)) ltac:(lia)) as Q.
      change (2 ^ 1) with 2 in Q.
      assert (Hyx : y <= 64 * x).
      { destruct (Z.le_gt_cases 0 k) as [Hk0|Hk0].
        - apply (ge_pow2_iff x y _ k 0) in Lo; try lia.
          pose proof (pow2_mono 0 k ltac:(lia)) as P.
          rewrite Z.pow_0_r in *. nia.
        - apply (ge_pow2_iff x y _ 0 (- k)) in Lo; try lia.
          pose proof (pow2_mono (- k) 6 ltac:(lia)) as P.
          change (2 ^ 6) with 64 in P. rewrite Z.pow_0_r in Lo.
          pose proof (pow2_gt0 (- k)). nia. }
      transitivity true; [apply Z.ltb_lt; nia | symmetry; apply Z.leb_le; lia].
Qed.

End MoreFloatFacts.

Section MoreSizeFacts.
Context {W T : Type} `{TorchTensor T} `{Runtime W T}.

(** X11.  For every legacy size an [off_t] can hold (non-zero, below 2^63
    bytes) the floating-point test of [check_file_size] gives no false
    alarm: a container at most 1% larger than the legacy file always
    passes.  The check raises exactly when the exact quotient
    [(sf_size - pt_size) / pt_size] reaches [drift_midpoint / 2^60], the
    midpoint between the double [0.01] and the next double. *)
Theorem check_file_size_no_false_alarm (sf_filename pt_filename : string)
  (s : State W T) (sf_size pt_size : N) :
  os_stat_size sf_filename (world s) = Ok sf_size ->
  os_stat_size pt_filename (world s) = Ok pt_size ->
  (0 < pt_size < 2 ^ 63)%N ->
  (growth_ok sf_size pt_size ->
   fst (check_file_size sf_filename pt_filename s) = Ok tt)
  /\
  (fst (check_file_size sf_filename pt_filename s)
   = if drift_midpoint * Z.of_N pt_size
        <=? (Z.of_N sf_size - Z.of_N pt_size) * 2 ^ 60
     then Raise (RuntimeError
                   (size_message sf_filename sf_size pt_filename pt_size))
     else Ok tt).
Proof.
  intros Hsf Hpt Hrange.
  assert (Hz : 0 < Z.of_N pt_size < 2 ^ 63).
  { change (2 ^ 63) with (Z.of_N (2 ^ 63)). lia. }
  assert (Hrun : fst (check_file_size sf_filename pt_filename s)
                 = if drift_midpoint * Z.of_N pt_size
                      <=? (Z.of_N sf_size - Z.of_N pt_size) * 2 ^ 60
                   then Raise (RuntimeError
                                 (size_message sf_filename sf_size
                                               pt_filename pt_size))
                   else Ok tt).
  { rewrite (check_file_size_run _ _ _ _ _ Hsf Hpt). cbn [fst].
    unfold py_truediv.
    destruct (Z.eqb_spec (Z.of_N pt_size) 0) as [E|_]; [lia|].
    now rewrite (drift_test_threshold _ _ Hz). }
  split; [|exact Hrun].
  intros Hg. rewrite Hrun. unfold growth_ok in Hg. unfold drift_midpoint.
  change (2 ^ 60) with 1152921504606846976.
  destruct (Z.leb_spec (11529215046068471 * Z.of_N pt_size)
              ((Z.of_N sf_size - Z.of_N pt_size) * 1152921504606846976));
    [lia | reflexivity].
Qed.

End MoreSizeFacts.

(** ** Joining and splitting paths *)

Section PathFacts.

Lemma split_slash_nonempty (s : string) : split_slash s <> [].
Proof.
  destruct s as [|c r]; cbn [split_slash]; [discriminate|].
  destruct (Ascii.eqb c slash); [discriminate|].
  destruct (split_slash r); discriminate.
Qed.

Lemma split_slash_app (a b : string) :
  split_slash (a ++ String slash b) = split_slash a ++ split_slash b.
Proof.
  induction a as [|c a IH]; cbn [String.append split_slash].
  - rewrite Ascii.eqb_refl. reflexivity.
  - destruct (Ascii.eqb c slash); rewrite IH; [reflexivity|].
    destruct (split_slash a) as [|h t] eqn:E; [|reflexivity].
    now apply split_slash_nonempty in E.
Qed.

Lemma split_slash_free (b : string) :
  slash_free b = true -> split_slash b = [b].
Proof.
  unfold slash_free. induction b as [|c r IH];
    cbn [list_ascii_of_string forallb split_slash]; intros Hb.
  - reflexivity.
  - apply andb_prop in Hb. destruct Hb as (Hc & Hr).
    apply Bool.negb_true_iff in Hc. rewrite Hc, (IH Hr). reflexivity.
Qed.

(** Joining the components with ["/"] gives the string back. *)
Lemma concat_split_slash (s : string) :
  String.concat "/" (split_slash s) = s.
Proof.
  induction s as [|c r IH]; cbn [split_slash].
  - reflexivity.
  - destruct (Ascii.eqb_spec c slash) as [->|Hc].
    + destruct (split_slash r) as [|h t] eqn:E.
      * now apply split_slash_nonempty in E.
      * change (String.concat "/" (EmptyString :: h :: t))
          with (String slash (String.concat "/" (h :: t))).
        now rewrite IH.
    + destruct (split_slash r) as [|h t] eqn:E.
      * now apply split_slash_nonempty in E.
      * destruct t as [|h' t'].
        -- cbn in IH. cbn. now rewrite IH.
        -- change (String.concat "/" (String c h :: h' :: t'))
             with (String c (String.concat "/" (h :: h' :: t'))).
           now rewrite IH.
Qed.

Lemma split_last_slash_join (a b : string) :
  slash_free b = true ->
  split_last_slash (a ++ String slash b) = ((a ++ "/")%string, b).
Proof.
  intros Hb. unfold split_last_slash.
  rewrite split_slash_app, (split_slash_free b Hb).
  rewrite removelast_last, last_last.
  destruct (split_slash a) as [|h t] eqn:E.
  - now apply split_slash_nonempty in E.
  - rewrite <- E, concat_split_slash. reflexivity.
Qed.

Lemma endswith_slash_spec (a : string) :
  py_endswith a "/" = ends_with_slash a.
Proof.
  unfold py_endswith. cbn [String.length].
  induction a as [|c r IH].
  - reflexivity.
  - cbn [String.length ends_with_slash]. destruct r as [|c' r'].
    + cbn. unfold slash. destruct (Ascii.eqb c "/"); reflexivity.
    + rewrite <- IH. cbn [String.length Nat.leb Nat.sub andb].
      rewrite ?Nat.sub_0_r. cbn [substring]. reflexivity.
Qed.

Lemma ends_with_slash_split (a : string) :
  ends_with_slash a = true -> exists h, a = (h ++ "/")%string.
Proof.
  induction a as [|c r IH]; cbn [ends_with_slash]; [discriminate|].
  destruct r as [|c' r'].
  - intros Hc. apply Ascii.eqb_eq in Hc. subst c. exists EmptyString.
    reflexivity.
  - intros Hr. destruct (IH Hr) as (h & E). exists (String c h).
    cbn [String.append]. now rewrite <- E.
Qed.

Lemma all_slashes_ends (a : string) :
  a <> EmptyString -> all_slashes a = true -> ends_with_slash a = true.
Proof.
  unfold all_slashes. induction a as [|c r IH]; [congruence|].
  intros _. cbn [list_ascii_of_string forallb ends_with_slash]. intros Hall.
  apply andb_prop in Hall. destruct Hall as (Hc & Hr).
  destruct r as [|c' r'].
  - now rewrite Ascii.eqb_sym.
  - apply IH; [discriminate | exact Hr].
Qed.

Lemma string_app_assoc (a b c : string) :
  ((a ++ b) ++ c = a ++ (b ++ c))%string.
Proof.
  induction a as [|x a IH]; cbn [String.append]; [reflexivity|].
  now rewrite IH.
Qed.

Lemma list_ascii_app (a b : string) :
  list_ascii_of_string (a ++ b)
  = list_ascii_of_string a ++ list_ascii_of_string b.
Proof.
  induction a as [|c r IH]; cbn [String.append list_ascii_of_string app].
  - reflexivity.
  - now rewrite IH.
Qed.

Lemma rstrip_chars_last (f : ascii -> bool) (l : list ascii) (c : ascii) :
  f c = true -> rstrip_chars f (l ++ [c]) = rstrip_chars f l.
Proof.
  intros Hc. unfold rstrip_chars. rewrite rev_app_distr.
  cbn [rev app lstrip_chars]. now rewrite Hc.
Qed.

Lemma slash_free_not_prefixed (b : string) :
  slash_free b = true -> py_startswith b "/" = false.
Proof.
  unfold slash_free, py_startswith. destruct b as [|c r]; [reflexivity|].
  cbn [list_ascii_of_string forallb String.prefix]. intros Hb.
  apply andb_prop in Hb. destruct Hb as (Hc & _).
  apply Bool.negb_true_iff in Hc.
  destruct (Ascii.ascii_dec "/" c) as [E|_]; [|reflexivity].
  subst c. discriminate.
Qed.

Lemma split_join (a b : string) :
  slash_free b = true ->
  split_last_slash (posix_join a b) = (join_head a, b).
Proof.
  intros Hb. unfold posix_join, join_head.
  rewrite (slash_free_not_prefixed b Hb), endswith_slash_spec.
  destruct a as [|c r].
  - cbn [String.eqb orb String.append]. unfold split_last_slash.
    rewrite (split_slash_free b Hb). reflexivity.
  - cbn [String.eqb orb]. set (a := String c r).
    destruct (ends_with_slash a) eqn:Hend.
    + destruct (ends_with_slash_split a Hend) as (h & Ea).
      replace (a ++ b)%string with (h ++ String slash b)%string.
      2: { rewrite Ea, string_app_assoc. reflexivity. }
      rewrite (split_last_slash_join h b Hb), <- Ea. reflexivity.
    + change (a ++ "/" ++ b)%string with (a ++ String slash b)%string.
      apply (split_last_slash_join a b Hb).
Qed.

(** What [dirname] makes of the head of a joined path. *)
Lemma dirname_of_join_head (a : string) :
  (if negb (String.eqb (join_head a) EmptyString)
      && negb (all_slashes (join_head a))
   then string_of_list_ascii
          (rstrip_chars (Ascii.eqb slash)
                        (list_ascii_of_string (join_head a)))
   else join_head a)
  = if all_slashes a then a
    else string_of_list_ascii
           (rstrip_chars (Ascii.eqb slash) (list_ascii_of_string a)).
Proof.
  unfold join_head. destruct a as [|c r]; [reflexivity|].
  cbn [String.eqb]. set (a := String c r).
  destruct (ends_with_slash a) eqn:Hend.
  - cbn [negb andb]. destruct (all_slashes a); reflexivity.
  - assert (Hall : all_slashes a = false).
    { destruct (all_slashes a) eqn:E; [|reflexivity].
      rewrite (all_slashes_ends a ltac:(discriminate) E) in Hend.
      discriminate. }
    assert (Hall' : all_slashes (a ++ "/") = false).
    { unfold all_slashes in *. rewrite list_ascii_app, forallb_app, Hall.
      reflexivity. }
    rewrite Hall, Hall'. cbn [negb andb String.append String.eqb].
    rewrite list_ascii_app. cbn [list_ascii_of_string].
    rewrite rstrip_chars_last by apply Ascii.eqb_refl. reflexivity.
Qed.

(** X12.  [dirname] and [basename] undo [join]: for a file name without
    ["/"], the base name of the joined path is the file name and its
    directory is the folder, less its trailing slashes (a folder made of
    slashes only is kept as it is).  This is how [convert_file] recovers
    [src_dir] and [dest_dir] from the paths [main] builds. *)
Theorem dirname_basename_of_join (a b : string) :
  slash_free b = true ->
  posix_basename (posix_join a b) = b
  /\ posix_dirname (posix_join a b)
     = if all_slashes a then a
       else string_of_list_ascii
              (rstrip_chars (Ascii.eqb slash) (list_ascii_of_string a)).
Proof.
  intros Hb. unfold posix_basename, posix_dirname.
  rewrite (split_join a b Hb). cbn [fst snd].
  split; [reflexivity | apply dirname_of_join_head].
Qed.

Lemma split_slash_components (s : string) :
  Forall (fun comp => slash_free comp = true) (split_slash s).
Proof.
  induction s as [|c r IH]; cbn [split_slash].
  - repeat constructor.
  - destruct (Ascii.eqb c slash) eqn:Hc.
    + constructor; [reflexivity | exact IH].
    + destruct (split_slash r) as [|h t]; [repeat constructor; unfold slash_free;
        cbn; now rewrite Hc|].
      inversion IH as [|? ? Hh Ht]; subst. constructor; [|exact Ht].
      unfold slash_free in *. cbn [list_ascii_of_string forallb].
      now rewrite Hc, Hh.
Qed.

Lemma basename_slash_free (p : string) : slash_free (posix_basename p) = true.
Proof.
  unfold posix_basename, split_last_slash.
  assert (Hl : slash_free (last (split_slash p) EmptyString) = true).
  { pose proof (split_slash_components p) as F.
    induction F as [|x l Hx F IH]; [reflexivity|].
    destruct l as [|y l']; [exact Hx | exact IH]. }
  destruct (removelast (split_slash p)); exact Hl.
Qed.

(** X13.  The destination [main] derives for an empty [--dest_directory] is a
    direct child of the source directory: its base name is the model name
    followed by [_safetensors] and its directory is the source directory
    (less trailing slashes). *)
Theorem derived_destination_inside_source (src dest : string) :
  py_strip dest = EmptyString ->
  posix_basename (resolved_destination src dest)
  = (posix_basename (posix_normpath (py_strip src)) ++ "_safetensors")%string
  /\ posix_dirname (resolved_destination src dest)
     = if all_slashes (py_strip src) then py_strip src
       else string_of_list_ascii
              (rstrip_chars (Ascii.eqb slash)
                            (list_ascii_of_string (py_strip src))).
Proof.
  intros Hd. unfold resolved_destination. rewrite Hd. cbn [String.eqb].
  assert (Hname : slash_free (posix_basename (posix_normpath (py_strip src))
                              ++ "_safetensors") = true).
  { unfold slash_free. rewrite list_ascii_app, forallb_app.
    fold (slash_free (posix_basename (posix_normpath (py_strip src)))).
    rewrite basename_slash_free. reflexivity. }
  unfold posix_basename at 1, posix_dirname.
  rewrite (split_join _ _ Hname). cbn [fst snd].
  split; [reflexivity | apply dirname_of_join_head].
Qed.

End PathFacts.

(** ** Further runs on concrete inputs *)

Section MoreConcreteRuns.
Import Toy Fixtures.

Lemma resolve_aliases_without_sharing_witness :
  NoDup (ptrs two_buffers)
  /\ resolve_aliases (VDict (tensor_dict two_buffers))
     = Ok (tensor_dict two_buffers).
Proof.
  assert (Hnd : NoDup (ptrs two_buffers)).
  { cbn. repeat constructor; cbn; intuition discriminate. }
  split; [exact Hnd|].
  apply (resolve_aliases_without_sharing two_buffers Hnd).
Defined.

Lemma state_dict_unwrapped_once_witness :
  dict_get "state_dict" wrapped = Ok (VDict tied_checkpoint)
  /\ dict_contains "state_dict" tied_checkpoint = false
  /\ payload wrapped = payload tied_checkpoint
  /\ payload param_named_state_dict = Raise (AttributeError "items").
Proof.
  split; [reflexivity|]. split; [reflexivity|]. split.
  - apply (proj1 (state_dict_unwrapped_once wrapped) tied_checkpoint);
      reflexivity.
  - apply (proj2 (state_dict_unwrapped_once param_named_state_dict)
                 (VTensor w1)); reflexivity.
Defined.

Lemma payload_of_tensors_witness :
  wf_dict three_views
  /\ ~ In "state_dict" (keys three_views)
  /\ payload (tensor_dict three_views)
     = Ok [("a", MkTensor 4096 Float16 true [Num 1; Num 2; Num 3; Num 4])].
Proof.
  assert (Hwf : wf_dict three_views)
    by (apply wf_dictb_sound; vm_compute; reflexivity).
  assert (Hno : ~ In "state_dict" (keys three_views))
    by (apply mem_str_false; vm_compute; reflexivity).
  split; [exact Hwf|]. split; [exact Hno|].
  rewrite (payload_of_tensors three_views Hwf Hno). vm_compute. reflexivity.
Defined.

Lemma non_tensor_entry_stops_conversion_witness :
  torch_load pt_path (world (start (model_dir with_epoch 50))) = Ok with_epoch
  /\ convert_file pt_path sf_path true (start (model_dir with_epoch 50))
     = (Raise (AttributeError "data_ptr"),
        log (start (model_dir with_epoch 50)) [EvTorchLoad pt_path]).
Proof.
  split; [reflexivity|].
  pose proof (non_tensor_entry_stops_conversion pt_path sf_path true
                (start (model_dir with_epoch 50)) with_epoch) as P.
  apply P; reflexivity.
Defined.

(** A legacy file of 40 bytes against a container of 48 bytes: growth of
    20%. *)
Lemma size_drift_failure_keeps_container_witness :
  ~ growth_ok 48 40
  /\ fst (convert tied_checkpoint 40)
     = Raise (RuntimeError (size_message sf_path 48 pt_path 40))
  /\ find sf_path (world (snd (convert tied_checkpoint 40)))
     = Some (Container
               [("w1", MkTensor 4096 Float16 true [Num 1; Num 2; Num 3; Num 4])]
               [("format", "pt")])
  /\ find "/out/config.json" (world (snd (convert tied_checkpoint 40))) = None.
Proof.
  assert (Hg : ~ growth_ok 48 40)
    by (unfold growth_ok; vm_compute; intros Hle; apply Hle; reflexivity).
  split; [exact Hg|].
  pose proof (size_drift_failure_keeps_container pt_path sf_path true
                (start (model_dir tied_checkpoint 40)) tied_checkpoint
                [("w1", MkTensor 4096 Float16 true [Num 1; Num 2; Num 3; Num 4])]
                48%N 40%N) as P.
  unfold convert. rewrite P.
  - repeat split; vm_compute; reflexivity.
  - reflexivity.
  - vm_compute. reflexivity.
  - reflexivity.
  - reflexivity.
  - vm_compute. reflexivity.
  - vm_compute. reflexivity.
  - vm_compute. split; reflexivity.
  - exact Hg.
Defined.

Lemma convert_file_without_sidecars_witness :
  fst (convert_file pt_path sf_path false (start (model_dir tied_checkpoint 50)))
  = Ok tt
  /\ exists (obj : odict (PyVal Tensor)) (tensors : odict Tensor),
       torch_load pt_path (world (start (model_dir tied_checkpoint 50))) = Ok obj
       /\ payload obj = Ok tensors
       /\ snd (convert_file pt_path sf_path false
                 (start (model_dir tied_checkpoint 50)))
          = MkState (written_world tensors sf_path
                       (world (start (model_dir tied_checkpoint 50))))
                    (trace (start (model_dir tied_checkpoint 50))
                     ++ stages pt_path sf_path tensors []).
Proof.
  split; [vm_compute; reflexivity|].
  apply (convert_file_without_sidecars pt_path sf_path
           (start (model_dir tied_checkpoint 50))).
  vm_compute. reflexivity.
Defined.

Lemma copier_only_copies_sidecars_witness :
  os_listdir "/data/foo" (world (start (model_dir tied_checkpoint 50)))
  = Ok ["pytorch_model.bin"; "config.json"]
  /\ exists evs,
       trace (snd (copy_remaining_files "/data/foo" "/out"
                     (start (model_dir tied_checkpoint 50))))
       = trace (start (model_dir tied_checkpoint 50)) ++ evs
       /\ Forall (copier_event ["pytorch_model.bin"; "config.json"]
                               "/data/foo" "/out") evs.
Proof.
  split; [vm_compute; reflexivity|].
  pose proof (copier_only_copies_sidecars "/data/foo" "/out"
                (start (model_dir tied_checkpoint 50))
                ["pytorch_model.bin"; "config.json"]) as P.
  apply P. vm_compute. reflexivity.
Defined.

Lemma copier_without_sidecars_witness :
  os_listdir "/data/foo" (world (start no_sidecars))
  = Ok ["pytorch_model.bin"; "train.py"; "sub"]
  /\ copy_remaining_files "/data/foo" "/out" (start no_sidecars)
     = (Ok tt,
        log (start no_sidecars)
            [EvListdir "/data/foo"; EvIsFile "/data/foo/pytorch_model.bin";
             EvIsFile "/data/foo/train.py"; EvIsFile "/data/foo/sub"]).
Proof.
  split; [vm_compute; reflexivity|].
  pose proof (copier_without_sidecars "/data/foo" "/out" (start no_sidecars)
                ["pytorch_model.bin"; "train.py"; "sub"]) as P.
  rewrite P; [reflexivity | vm_compute; reflexivity | vm_compute; reflexivity].
Defined.

(** Growth of exactly 1%: no error. *)
Lemma check_file_size_no_false_alarm_witness :
  growth_ok 101 100
  /\ fst (check_file_size sf_path pt_path (start (sizes_world 101 100)))
     = Ok tt.
Proof.
  assert (Hg : growth_ok 101 100)
    by (unfold growth_ok; vm_compute; discriminate).
  split; [exact Hg|].
  pose proof (check_file_size_no_false_alarm sf_path pt_path
                (start (sizes_world 101 100)) 101%N 100%N) as P.
  destruct P as (P1 & _);
    [reflexivity | reflexivity | vm_compute; split; reflexivity |].
  exact (P1 Hg).
Defined.

Lemma dirname_basename_of_join_witness :
  slash_free "pytorch_model.bin" = true
  /\ posix_basename (posix_join "/data/foo/" "pytorch_model.bin")
     = "pytorch_model.bin"
  /\ posix_dirname (posix_join "/data/foo/" "pytorch_model.bin") = "/data/foo".
Proof.
  split; [reflexivity|].
  destruct (dirname_basename_of_join "/data/foo/" "pytorch_model.bin" eq_refl)
    as (Hb & Hd).
  split; [exact Hb|]. rewrite Hd. vm_compute. reflexivity.
Defined.

Lemma derived_destination_inside_source_witness :
  py_strip "  " = EmptyString
  /\ posix_basename (resolved_destination "/data/foo" "  ") = "foo_safetensors"
  /\ posix_dirname (resolved_destination "/data/foo" "  ") = "/data/foo".
Proof.
  split; [reflexivity|].
  destruct (derived_destination_inside_source "/data/foo" "  " eq_refl)
    as (Hb & Hd).
  split; [rewrite Hb | rewrite Hd]; vm_compute; reflexivity.
Defined.

End MoreConcreteRuns.
